(** * dbus-autosleep: the mode decision engine of [update_ess_mode]

    A shallow embedding of [src/dbus-autosleep.py].  The script's module
    globals become the record [Globals]; the once-per-second callback
    [update_ess_mode] becomes a function in a small monad that threads the
    globals, collects the observable effects of a tick (telemetry
    publications, log records, the [SetValue] on the Mode bus item, sleeps)
    and propagates Python exceptions, [SystemExit] included.

    Everything the callback obtains from outside (bus reads, the marker
    file, whether a publication or the mode write raises) is gathered in the
    record [Env], one per tick. *)

From Stdlib Require Import ZArith List String Bool Lia.
Import ListNotations.

Local Open Scope string_scope.
Local Open Scope list_scope.
Local Open Scope Z_scope.

(** ** Parameters (lines 40-65 of the script) *)

Definition THRESHOLD_DEBOUNCE : Z := 10.
Definition FEED_IN_TIMEOUT : Z := 3600.
Definition FEED_IN_THRESHOLD : Z := 100.
Definition FEED_IN_DISABLE_THRESHOLD : Z := 50.
Definition CHARGE_TIMEOUT : Z := 3600.
Definition CHARGE_THRESHOLD : Z := -100.
Definition CHARGE_DISABLE_THRESHOLD : Z := -50.
Definition STABLE_TIMER : Z := 60.
Definition LOCK_TIME : Z := 600.

Definition VE_MODE_CHARGER_ONLY : Z := 1.
Definition VE_MODE_INVERTER_ONLY : Z := 2.
Definition VE_MODE_ON : Z := 3.
Definition VE_MODE_OFF : Z := 4.

(** ** Values

    What a bus item's [GetValue()] may hand back, as far as the script can
    tell the cases apart: a [dbus.Int32] (the only type the ESS power guard
    accepts), any other number (a Python [int], [dbus.UInt32], [dbus.Byte],
    ...; readings are taken at integer values), or something that is not a
    number (the empty [dbus.Array] of an invalid item, a string). *)

Inductive value : Type :=
| Int32 (n : Z)
| Num (n : Z)
| NonNum.

(** Python's [v == k] against an integer literal: never raises, and is
    false for a value that is not a number. *)
Definition py_eq (v : value) (k : Z) : bool :=
  match v with
  | Int32 n | Num n => n =? k
  | NonNum => false
  end.

(** [isinstance(v, dbus.Int32)] *)
Definition is_Int32 (v : value) : bool :=
  match v with
  | Int32 _ => true
  | _ => false
  end.

Definition get_ve_mode_text (state : value) : string :=
  if py_eq state VE_MODE_CHARGER_ONLY then "Charger only"
  else if py_eq state VE_MODE_INVERTER_ONLY then "Inverter only"
  else if py_eq state VE_MODE_ON then "On"
  else if py_eq state VE_MODE_OFF then "Off"
  else "UNKNOWN".

(** ** Module globals (lines 115-127) *)

Record Globals : Type := mkGlobals {
  grid_import_debounce : Z;
  grid_import_timer : Z;
  grid_export_debounce : Z;
  grid_export_timer : Z;
  feed_in_unstable : bool;
  feed_in_stable : bool;
  feed_in_stable_timer : Z;
  charge_unstable : bool;
  charge_stable : bool;
  charge_stable_timer : Z;
  mode_current : value;
  mode_change_lock_timer : Z;
  output_enabled : bool
}.

(** The globals when the main loop starts: lines 115-127, with
    [mode_current] overwritten by the start-up read of line 426. *)
Definition initial_globals (mode_at_startup : value) : Globals :=
  {| grid_import_debounce := THRESHOLD_DEBOUNCE;
     grid_import_timer := 0;
     grid_export_debounce := THRESHOLD_DEBOUNCE;
     grid_export_timer := 0;
     feed_in_unstable := false;
     feed_in_stable := false;
     feed_in_stable_timer := STABLE_TIMER;
     charge_unstable := false;
     charge_stable := false;
     charge_stable_timer := STABLE_TIMER;
     mode_current := mode_at_startup;
     mode_change_lock_timer := LOCK_TIME;
     output_enabled := true |}.

(** Assignments to one global. *)
Definition set_grid_import_debounce (x : Z) (g : Globals) : Globals :=
  mkGlobals x (grid_import_timer g) (grid_export_debounce g)
    (grid_export_timer g) (feed_in_unstable g) (feed_in_stable g)
    (feed_in_stable_timer g) (charge_unstable g) (charge_stable g)
    (charge_stable_timer g) (mode_current g) (mode_change_lock_timer g)
    (output_enabled g).

Definition set_grid_import_timer (x : Z) (g : Globals) : Globals :=
  mkGlobals (grid_import_debounce g) x (grid_export_debounce g)
    (grid_export_timer g) (feed_in_unstable g) (feed_in_stable g)
    (feed_in_stable_timer g) (charge_unstable g) (charge_stable g)
    (charge_stable_timer g) (mode_current g) (mode_change_lock_timer g)
    (output_enabled g).

Definition set_grid_export_debounce (x : Z) (g : Globals) : Globals :=
  mkGlobals (grid_import_debounce g) (grid_import_timer g) x
    (grid_export_timer g) (feed_in_unstable g) (feed_in_stable g)
    (feed_in_stable_timer g) (charge_unstable g) (charge_stable g)
    (charge_stable_timer g) (mode_current g) (mode_change_lock_timer g)
    (output_enabled g).

Definition set_grid_export_timer (x : Z) (g : Globals) : Globals :=
  mkGlobals (grid_import_debounce g) (grid_import_timer g)
    (grid_export_debounce g) x (feed_in_unstable g) (feed_in_stable g)
    (feed_in_stable_timer g) (charge_unstable g) (charge_stable g)
    (charge_stable_timer g) (mode_current g) (mode_change_lock_timer g)
    (output_enabled g).

Definition set_feed_in_unstable (x : bool) (g : Globals) : Globals :=
  mkGlobals (grid_import_debounce g) (grid_import_timer g)
    (grid_export_debounce g) (grid_export_timer g) x (feed_in_stable g)
    (feed_in_stable_timer g) (charge_unstable g) (charge_stable g)
    (charge_stable_timer g) (mode_current g) (mode_change_lock_timer g)
    (output_enabled g).

Definition set_feed_in_stable (x : bool) (g : Globals) : Globals :=
  mkGlobals (grid_import_debounce g) (grid_import_timer g)
    (grid_export_debounce g) (grid_export_timer g) (feed_in_unstable g) x
    (feed_in_stable_timer g) (charge_unstable g) (charge_stable g)
    (charge_stable_timer g) (mode_current g) (mode_change_lock_timer g)
    (output_enabled g).

Definition set_feed_in_stable_timer (x : Z) (g : Globals) : Globals :=
  mkGlobals (grid_import_debounce g) (grid_import_timer g)
    (grid_export_debounce g) (grid_export_timer g) (feed_in_unstable g)
    (feed_in_stable g) x (charge_unstable g) (charge_stable g)
    (charge_stable_timer g) (mode_current g) (mode_change_lock_timer g)
    (output_enabled g).

Definition set_charge_unstable (x : bool) (g : Globals) : Globals :=
  mkGlobals (grid_import_debounce g) (grid_import_timer g)
    (grid_export_debounce g) (grid_export_timer g) (feed_in_unstable g)
    (feed_in_stable g) (feed_in_stable_timer g) x (charge_stable g)
    (charge_stable_timer g) (mode_current g) (mode_change_lock_timer g)
    (output_enabled g).

Definition set_charge_stable (x : bool) (g : Globals) : Globals :=
  mkGlobals (grid_import_debounce g) (grid_import_timer g)
    (grid_export_debounce g) (grid_export_timer g) (feed_in_unstable g)
    (feed_in_stable g) (feed_in_stable_timer g) (charge_unstable g) x
    (charge_stable_timer g) (mode_current g) (mode_change_lock_timer g)
    (output_enabled g).

Definition set_charge_stable_timer (x : Z) (g : Globals) : Globals :=
  mkGlobals (grid_import_debounce g) (grid_import_timer g)
    (grid_export_debounce g) (grid_export_timer g) (feed_in_unstable g)
    (feed_in_stable g) (feed_in_stable_timer g) (charge_unstable g)
    (charge_stable g) x (mode_current g) (mode_change_lock_timer g)
    (output_enabled g).

Definition set_mode_current (x : value) (g : Globals) : Globals :=
  mkGlobals (grid_import_debounce g) (grid_import_timer g)
    (grid_export_debounce g) (grid_export_timer g) (feed_in_unstable g)
    (feed_in_stable g) (feed_in_stable_timer g) (charge_unstable g)
    (charge_stable g) (charge_stable_timer g) x (mode_change_lock_timer g)
    (output_enabled g).

Definition set_mode_change_lock_timer (x : Z) (g : Globals) : Globals :=
  mkGlobals (grid_import_debounce g) (grid_import_timer g)
    (grid_export_debounce g) (grid_export_timer g) (feed_in_unstable g)
    (feed_in_stable g) (feed_in_stable_timer g) (charge_unstable g)
    (charge_stable g) (charge_stable_timer g) (mode_current g) x
    (output_enabled g).

Definition set_output_enabled (x : bool) (g : Globals) : Globals :=
  mkGlobals (grid_import_debounce g) (grid_import_timer g)
    (grid_export_debounce g) (grid_export_timer g) (feed_in_unstable g)
    (feed_in_stable g) (feed_in_stable_timer g) (charge_unstable g)
    (charge_stable g) (charge_stable_timer g) (mode_current g)
    (mode_change_lock_timer g) x.

(** ** Observable effects of a tick *)

(** What is assigned to a telemetry path: a Python [bool] or a number/bus
    value. *)
Inductive payload : Type :=
| PBool (b : bool)
| PVal (v : value).

(** The records handed to [log.info] / [log.error], by format string. *)
Inductive message : Type :=
| MsgEnabled (current : string)
| MsgDisabled
| MsgChange (enabled : bool) (from to : string)
| MsgPv (pv_state : value) (pv_power ess_power : Z)
| MsgGrid (grid_power residual_load total_load : Z)
| MsgBattery (battery_soc : Z) (charge_allowed feed_in_allowed : bool)
| MsgCounters (charge_timeout feed_in_timeout : Z)
| MsgNoGridPower
| MsgException
| MsgTraceback.

Inductive event : Type :=
| Debug (path : string) (x : payload)   (* dbusservice['debug'][path] = x *)
| LogInfo (m : message)
| LogError (m : message)
| SetValue (mode : Z)                   (* busitem['Mode'].SetValue(...) *)
| Sleep (seconds : Z).

(** ** The environment of one tick

    [None] for a read means that [GetValue()] raised. *)

Record Env : Type := mkEnv {
  DisableFeedIn : option value;
  DisableCharge : option value;
  EssPower : option value;
  GridPower : option value;
  PvStatus : option value;
  PvPower : option value;
  Mode : option value;
  BatterySoc : option value;
  marker_file : bool;             (* os.path.isfile('/data/dbus-autosleep/.output-enabled') *)
  sink_ok : string -> bool;       (* the publication on this path does not raise *)
  mode_write_ok : bool            (* SetValue on the Mode item does not raise *)
}.

(** ** The monad: globals, effects, exceptions *)

Inductive exn : Type :=
| Error         (* any exception derived from Exception *)
| SystemExit.   (* raised by sys.exit() *)

Inductive result (A : Type) : Type :=
| Val (a : A) (g : Globals) (t : list event)
| Exc (e : exn) (g : Globals) (t : list event).

Arguments Val {A} a g t.
Arguments Exc {A} e g t.

Definition M (A : Type) : Type := Globals -> result A.

Definition ret {A : Type} (a : A) : M A := fun g => Val a g [].

Definition bind {A B : Type} (m : M A) (k : A -> M B) : M B :=
  fun g =>
    match m g with
    | Val a g1 t1 =>
        match k a g1 with
        | Val b g2 t2 => Val b g2 (t1 ++ t2)
        | Exc e g2 t2 => Exc e g2 (t1 ++ t2)
        end
    | Exc e g1 t1 => Exc e g1 t1
    end.

Notation "x <- m ;; k" := (bind m (fun x => k))
  (at level 61, m at next level, right associativity).
Notation "' pat <- m ;; k" := (bind m (fun x => match x with pat => k end))
  (at level 61, pat pattern, m at next level, right associativity).
Notation "m ;; k" := (bind m (fun _ => k))
  (at level 61, right associativity).

Definition raise {A : Type} (e : exn) : M A := fun g => Exc e g [].

Definition emit (ev : event) : M unit := fun g => Val tt g [ev].

Definition load {A : Type} (field : Globals -> A) : M A :=
  fun g => Val (field g) g [].

Definition store (assign : Globals -> Globals) : M unit :=
  fun g => Val tt (assign g) [].

(** [try: body / except: handler] with a bare [except], which also catches
    [SystemExit]; the globals assigned and the effects made before the
    exception stay. *)
Definition try_except {A : Type} (body handler : M A) : M A :=
  fun g =>
    match body g with
    | Val a g1 t1 => Val a g1 t1
    | Exc _ g1 t1 =>
        match handler g1 with
        | Val a g2 t2 => Val a g2 (t1 ++ t2)
        | Exc e g2 t2 => Exc e g2 (t1 ++ t2)
        end
    end.

Definition when (c : bool) (m : M unit) : M unit :=
  if c then m else ret tt.

(** [busitem[...].GetValue()] *)
Definition GetValue (read : option value) : M value :=
  match read with
  | Some v => ret v
  | None => raise Error
  end.

(** A value used as an operand of [+] or [-], or formatted with [:.0f]:
    [TypeError] when it is not a number. *)
Definition number (v : value) : M Z :=
  match v with
  | Int32 n | Num n => ret n
  | NonNum => raise Error
  end.

Definition info (m : message) : M unit := emit (LogInfo m).
Definition error (m : message) : M unit := emit (LogError m).
Definition sleep (seconds : Z) : M unit := emit (Sleep seconds).
Definition sys_exit {A : Type} : M A := raise SystemExit.

(** ** The tick: [update_ess_mode] (lines 129-362) *)

Section Tick.

Variable env : Env.

(** [dbusservice['debug'][path] = x] *)
Definition debug (path : string) (x : payload) : M unit :=
  fun g => if sink_ok env path then Val tt g [Debug path x] else Exc Error g [].

(** [busitem['Mode'].SetValue(dbus.UInt32(mode, variant_level=1))]; the
    call is recorded whether or not it raises. *)
Definition SetMode (mode : Z) : M unit :=
  fun g =>
    if mode_write_ok env then Val tt g [SetValue mode]
    else Exc Error g [SetValue mode].

(** Lines 130-139. *)
Definition read_allow_flags : M (bool * bool) :=
  try_except
    (v <- GetValue (DisableFeedIn env);;
     let feed_in_allowed := py_eq v 0 in
     w <- GetValue (DisableCharge env);;
     let charge_allowed := py_eq w 0 in
     debug "/FeedInAllowed" (PBool feed_in_allowed);;
     debug "/ChargeAllowed" (PBool charge_allowed);;
     ret (feed_in_allowed, charge_allowed))
    (ret (true, true)).

(** Lines 141-149. *)
Definition read_ess_power : M value :=
  try_except
    (ess_power <- GetValue (EssPower env);;
     debug "/EssPower" (PVal ess_power);;
     ret (if negb (is_Int32 ess_power) then Num 0 else ess_power))
    (ret (Num 0)).

(** Lines 151-161. *)
Definition read_grid_power : M value :=
  try_except
    (grid_power <- GetValue (GridPower env);;
     debug "/GridPower" (PVal grid_power);;
     ret grid_power)
    (error MsgNoGridPower;;
     sleep 30;;
     sys_exit).

(** Lines 163-171. *)
Definition read_pv : M (value * value) :=
  try_except
    (pv_inverter_mode <- GetValue (PvStatus env);;
     pv_power <- GetValue (PvPower env);;
     debug "/PvPower" (PVal pv_power);;
     debug "/PvInverterStatus" (PVal pv_inverter_mode);;
     ret (pv_inverter_mode, pv_power))
    (ret (Num 0, Num (-1))).

(** Lines 190-238: determine and stabilize the feed-in request. *)
Definition feed_in_request (feed_in_allowed : bool) (residual_load : Z) : M unit :=
  (* debounce feed-in trigger *)
  let feed_in_threshold_exceeded := residual_load >? FEED_IN_DISABLE_THRESHOLD in
  (if negb feed_in_threshold_exceeded then
     store (set_grid_import_debounce THRESHOLD_DEBOUNCE)
   else
     d <- load grid_import_debounce;;
     if d >? 0 then store (set_grid_import_debounce (d - 1)) else ret tt);;
  d <- load grid_import_debounce;;
  debug "/FeedInDebounce" (PVal (Num d));;
  (* handle feed-in timeout *)
  (if d =? 0 then
     store (set_grid_import_timer FEED_IN_TIMEOUT)
   else
     t <- load grid_import_timer;;
     if t >? 0 then store (set_grid_import_timer (t - 1)) else ret tt);;
  t <- load grid_import_timer;;
  debug "/FeedInTimeout" (PVal (Num t));;
  (* determine whether the inverter should be active *)
  stable <- load feed_in_stable;;
  let feed_in_threshold_exceeded := residual_load >? FEED_IN_THRESHOLD in
  let feed_in_new :=
    feed_in_allowed
    && ((stable && (t >? 0)) || (negb stable && feed_in_threshold_exceeded)) in
  debug "/FeedInRequest" (PBool feed_in_new);;
  (* stabilize feed-in request *)
  unstable <- load feed_in_unstable;;
  timer <- load feed_in_stable_timer;;
  (if negb (Bool.eqb feed_in_new unstable) then
     store (set_feed_in_unstable feed_in_new);;
     store (set_feed_in_stable_timer STABLE_TIMER)
   else if timer >? 0 then
     store (set_feed_in_stable_timer (timer - 1))
   else
     store (set_feed_in_stable unstable));;
  timer <- load feed_in_stable_timer;;
  debug "/FeedInRequestStableTimer" (PVal (Num timer));;
  stable <- load feed_in_stable;;
  debug "/FeedInRequestStable" (PBool stable).

(** Lines 245-297: determine and stabilize the charge request. *)
Definition charge_request (charge_allowed : bool) (residual_load : Z)
    (pv_inverter_mode : value) : M unit :=
  (* check PV inverter state *)
  let pv_active := py_eq pv_inverter_mode 11 || py_eq pv_inverter_mode 12 in
  (* debounce charge trigger *)
  let charge_threshold_exceeded := residual_load <? CHARGE_DISABLE_THRESHOLD in
  (if negb charge_threshold_exceeded then
     store (set_grid_export_debounce THRESHOLD_DEBOUNCE)
   else
     d <- load grid_export_debounce;;
     if d >? 0 then store (set_grid_export_debounce (d - 1)) else ret tt);;
  d <- load grid_export_debounce;;
  debug "/ChargeDebounce" (PVal (Num d));;
  (* handle charge timeout *)
  (if d =? 0 then
     store (set_grid_export_timer CHARGE_TIMEOUT)
   else
     t <- load grid_export_timer;;
     if t >? 0 then store (set_grid_export_timer (t - 1)) else ret tt);;
  t <- load grid_export_timer;;
  debug "/ChargeTimeout" (PVal (Num t));;
  (* determine whether the charger should be active *)
  stable <- load charge_stable;;
  let charge_threshold_exceeded := residual_load <? CHARGE_THRESHOLD in
  let charge_new :=
    charge_allowed
    && ((stable && (t >? 0)) || (negb stable && charge_threshold_exceeded))
    && pv_active in
  debug "/ChargeRequest" (PBool charge_new);;
  (* stabilize charge request *)
  unstable <- load charge_unstable;;
  timer <- load charge_stable_timer;;
  (if negb (Bool.eqb charge_new unstable) then
     store (set_charge_unstable charge_new);;
     store (set_charge_stable_timer STABLE_TIMER)
   else if timer >? 0 then
     store (set_charge_stable_timer (timer - 1))
   else
     store (set_charge_stable unstable));;
  timer <- load charge_stable_timer;;
  debug "/ChargeRequestStableTimer" (PVal (Num timer));;
  stable <- load charge_stable;;
  debug "/ChargeRequestStable" (PBool stable).

(** Lines 315-353: publish the desired mode, poll the enable switch and
    apply the mode under the lock.  The numbers [grid], [ess] and [pv] are
    the operands already used for the loads. *)
Definition apply_mode (mode_new : Z) (feed_in_allowed charge_allowed : bool)
    (grid ess pv residual_load total_load : Z) (pv_inverter_mode : value) : M unit :=
  debug "/Mode" (PVal (Num mode_new));;
  (* determine whether output is enabled *)
  output_enabled_old <- load output_enabled;;
  store (set_output_enabled (marker_file env));;
  enabled <- load output_enabled;;
  (if enabled && negb output_enabled_old then
     m <- GetValue (Mode env);;
     store (set_mode_current m);;
     info (MsgEnabled (get_ve_mode_text m));;
     store (set_mode_change_lock_timer 0)
   else if negb enabled && output_enabled_old then
     info MsgDisabled
   else ret tt);;
  (* check whether we are allowed to update the mode *)
  lock <- load mode_change_lock_timer;;
  (if lock >? 0 then
     store (set_mode_change_lock_timer (lock - 1))
   else
     current <- load mode_current;;
     if negb (py_eq current mode_new) then
       battery_soc <- GetValue (BatterySoc env);;
       info (MsgChange enabled (get_ve_mode_text current)
                       (get_ve_mode_text (Num mode_new)));;
       info (MsgPv pv_inverter_mode pv ess);;
       info (MsgGrid grid residual_load total_load);;
       soc <- number battery_soc;;
       info (MsgBattery soc charge_allowed feed_in_allowed);;
       ct <- load grid_export_timer;;
       ft <- load grid_import_timer;;
       info (MsgCounters ct ft);;
       (* update the mode *)
       store (set_mode_current (Num mode_new));;
       store (set_mode_change_lock_timer LOCK_TIME);;
       debug "/ModeOutput" (PVal (Num mode_new));;
       if enabled then SetMode mode_new else ret tt
     else ret tt);;
  lock <- load mode_change_lock_timer;;
  debug "/ModeLockTime" (PVal (Num lock)).

(** Lines 304-353: determine and set the overall mode. *)
Definition overall_mode (feed_in_allowed charge_allowed : bool)
    (grid ess pv residual_load total_load : Z) (pv_inverter_mode : value) : M unit :=
  (* determine desired mode *)
  fs <- load feed_in_stable;;
  cs <- load charge_stable;;
  let mode_new :=
    if Bool.eqb fs true then VE_MODE_ON
    else if Bool.eqb cs true then VE_MODE_ON
    else VE_MODE_OFF in
  apply_mode mode_new feed_in_allowed charge_allowed grid ess pv residual_load
    total_load pv_inverter_mode.

(** Lines 174-353: the body of the last [try]. *)
Definition decide (feed_in_allowed charge_allowed : bool)
    (ess_power grid_power pv_inverter_mode pv_power : value) : M unit :=
  grid <- number grid_power;;
  ess <- number ess_power;;
  let residual_load := grid - ess in
  debug "/ResidualLoad" (PVal (Num residual_load));;
  pv <- number pv_power;;
  let total_load := residual_load + pv in
  debug "/TotalLoad" (PVal (Num total_load));;
  feed_in_request feed_in_allowed residual_load;;
  charge_request charge_allowed residual_load pv_inverter_mode;;
  overall_mode feed_in_allowed charge_allowed grid ess pv residual_load
    total_load pv_inverter_mode.

Definition update_ess_mode : M bool :=
  '(feed_in_allowed, charge_allowed) <- read_allow_flags;;
  ess_power <- read_ess_power;;
  grid_power <- read_grid_power;;
  '(pv_inverter_mode, pv_power) <- read_pv;;
  try_except
    (decide feed_in_allowed charge_allowed ess_power grid_power
       pv_inverter_mode pv_power)
    (error MsgException;;
     error MsgTraceback;;
     sleep 10;;
     sys_exit);;
  ret true.

End Tick.

(** ** The main loop

    GLib calls [update_ess_mode] once a second for as long as it returns
    [True] (line 430); an exception leaving the callback ends the run.  The
    list holds the outcome of every tick that was started. *)

Fixpoint main_loop (envs : list Env) (g : Globals) : list (result bool) :=
  match envs with
  | [] => []
  | env :: rest =>
      match update_ess_mode env g with
      | Val b g' t => Val b g' t :: main_loop rest g'
      | Exc e g' t => [Exc e g' t]
      end
  end.

Definition globals_of {A : Type} (r : result A) : Globals :=
  match r with
  | Val _ g _ => g
  | Exc _ g _ => g
  end.

Definition trace_of {A : Type} (r : result A) : list event :=
  match r with
  | Val _ _ t => t
  | Exc _ _ t => t
  end.

Definition completed {A : Type} (r : result A) : bool :=
  match r with
  | Val _ _ _ => true
  | Exc _ _ _ => false
  end.

(** The modes passed to [SetValue] on the Mode item, in order. *)
Fixpoint mode_writes (t : list event) : list Z :=
  match t with
  | [] => []
  | SetValue m :: t' => m :: mode_writes t'
  | _ :: t' => mode_writes t'
  end.

(** Number of mode writes over a stretch of ticks. *)
Definition writes_in (rs : list (result bool)) : nat :=
  List.length (flat_map (fun r => mode_writes (trace_of r)) rs).

(** The tick published [x] on telemetry path [path]. *)
Definition publishes (t : list event) (path : string) (x : payload) : Prop :=
  In (Debug path x) t.

(** The tick wrote a "Changing mode" / "Suggesting mode change" record. *)
Definition is_change_log (ev : event) : bool :=
  match ev with
  | LogInfo (MsgChange _ _ _) => true
  | _ => false
  end.

(** Globals after [n] completed ticks ([None] when the run ended earlier
    or is shorter). *)
Fixpoint globals_after (n : nat) (envs : list Env) (g : Globals) : option Globals :=
  match n with
  | O => Some g
  | S k =>
      match envs with
      | [] => None
      | env :: rest =>
          match update_ess_mode env g with
          | Val _ g' _ => globals_after k rest g'
          | Exc _ _ _ => None
          end
      end
  end.

(** ** What the sections of a tick compute

    The values the statements of [update_ess_mode] leave in the globals,
    as functions of the globals before. *)

(** Lines 193-197 and 251-255. *)
Definition debounce (exceeded : bool) (counter : Z) : Z :=
  if negb exceeded then THRESHOLD_DEBOUNCE
  else if counter >? 0 then counter - 1
  else counter.

(** Lines 204-207 and 262-265. *)
Definition countdown (ceiling debounced timer : Z) : Z :=
  if debounced =? 0 then ceiling
  else if timer >? 0 then timer - 1
  else timer.

(** Lines 220-221. *)
Definition feed_in_candidate (allowed stable : bool) (timer residual_load : Z) : bool :=
  allowed
  && ((stable && (timer >? 0))
      || (negb stable && (residual_load >? FEED_IN_THRESHOLD))).

(** Lines 246 and 279-280. *)
Definition charge_candidate (allowed stable : bool) (timer residual_load : Z)
    (pv_inverter_mode : value) : bool :=
  allowed
  && ((stable && (timer >? 0))
      || (negb stable && (residual_load <? CHARGE_THRESHOLD)))
  && (py_eq pv_inverter_mode 11 || py_eq pv_inverter_mode 12).

(** Lines 229-235 and 288-294, on (candidate to be stabilized, settle
    timer, latest stable state). *)
Definition stabilize (new : bool) (s : bool * Z * bool) : bool * Z * bool :=
  let '(unstable, timer, stable) := s in
  if negb (Bool.eqb new unstable) then (new, STABLE_TIMER, stable)
  else if timer >? 0 then (unstable, timer - 1, stable)
  else (unstable, timer, unstable).

Definition feed_in_step (feed_in_allowed : bool) (residual_load : Z) (g : Globals) : Globals :=
  let d := debounce (residual_load >? FEED_IN_DISABLE_THRESHOLD) (grid_import_debounce g) in
  let t := countdown FEED_IN_TIMEOUT d (grid_import_timer g) in
  let new := feed_in_candidate feed_in_allowed (feed_in_stable g) t residual_load in
  let '(unstable, timer, stable) :=
    stabilize new (feed_in_unstable g, feed_in_stable_timer g, feed_in_stable g) in
  set_feed_in_stable stable
    (set_feed_in_stable_timer timer
      (set_feed_in_unstable unstable
        (set_grid_import_timer t (set_grid_import_debounce d g)))).

Definition charge_step (charge_allowed : bool) (residual_load : Z)
    (pv_inverter_mode : value) (g : Globals) : Globals :=
  let d := debounce (residual_load <? CHARGE_DISABLE_THRESHOLD) (grid_export_debounce g) in
  let t := countdown CHARGE_TIMEOUT d (grid_export_timer g) in
  let new := charge_candidate charge_allowed (charge_stable g) t residual_load
               pv_inverter_mode in
  let '(unstable, timer, stable) :=
    stabilize new (charge_unstable g, charge_stable_timer g, charge_stable g) in
  set_charge_stable stable
    (set_charge_stable_timer timer
      (set_charge_unstable unstable
        (set_grid_export_timer t (set_grid_export_debounce d g)))).

(** Lines 305-313. *)
Definition mode_select (feed_in_stable charge_stable : bool) : Z :=
  if feed_in_stable then VE_MODE_ON
  else if charge_stable then VE_MODE_ON
  else VE_MODE_OFF.

(** Lines 331-351 on (mode_current, mode_change_lock_timer): the pair they
    leave and the modes written. *)
Definition relock (enabled : bool) (mode_new : Z) (current : value) (lock : Z)
    : value * Z * list Z :=
  if lock >? 0 then (current, lock - 1, [])
  else if negb (py_eq current mode_new)
       then (Num mode_new, LOCK_TIME, if enabled then [mode_new] else [])
       else (current, lock, []).

(** Line 321: the switch went from off to on. *)
Definition resync (env : Env) (g : Globals) : bool :=
  marker_file env && negb (output_enabled g).

(** ** Outcomes of the sections of a tick *)

Definition feed_in_fields (g : Globals) : Z * Z * bool * Z * bool :=
  (grid_import_debounce g, grid_import_timer g, feed_in_unstable g,
   feed_in_stable_timer g, feed_in_stable g).

Definition charge_fields (g : Globals) : Z * Z * bool * Z * bool :=
  (grid_export_debounce g, grid_export_timer g, charge_unstable g,
   charge_stable_timer g, charge_stable g).

Definition mode_fields (g : Globals) : value * Z * bool :=
  (mode_current g, mode_change_lock_timer g, output_enabled g).

Definition feed_in_paths : list string :=
  ["/FeedInDebounce"; "/FeedInTimeout"; "/FeedInRequest";
   "/FeedInRequestStableTimer"; "/FeedInRequestStable"].

Definition charge_paths : list string :=
  ["/ChargeDebounce"; "/ChargeTimeout"; "/ChargeRequest";
   "/ChargeRequestStableTimer"; "/ChargeRequestStable"].

Definition mode_paths : list string :=
  ["/Mode"; "/ModeOutput"; "/ModeLockTime"].

Definition load_paths : list string :=
  ["/ResidualLoad"; "/TotalLoad"].

Definition reading_paths : list string :=
  ["/FeedInAllowed"; "/ChargeAllowed"; "/EssPower"; "/GridPower";
   "/PvPower"; "/PvInverterStatus"].

(** Every publication in [t] is on one of [paths]. *)
Definition telemetry_within (paths : list string) (t : list event) : Prop :=
  forall p x, In (Debug p x) t -> In p paths.

(** No mode write and no mode change record in [t]. *)
Definition quiet (t : list event) : Prop :=
  mode_writes t = [] /\ existsb is_change_log t = false.

(** Put the effects [t] before those of an outcome. *)
Definition prepend {A : Type} (t : list event) (r : result A) : result A :=
  match r with
  | Val a g t' => Val a g (t ++ t')
  | Exc e g t' => Exc e g (t ++ t')
  end.

Lemma bind_unfold {A B : Type} (m : M A) (k : A -> M B) g :
  bind m k g =
  match m g with
  | Val a g1 t1 => prepend t1 (k a g1)
  | Exc e g1 t1 => Exc e g1 t1
  end.
Proof. unfold bind, prepend. destruct (m g); [destruct (k a g0)|]; reflexivity. Qed.

Lemma try_except_unfold {A : Type} (body handler : M A) g :
  try_except body handler g =
  match body g with
  | Val a g1 t1 => Val a g1 t1
  | Exc _ g1 t1 => prepend t1 (handler g1)
  end.
Proof.
  unfold try_except, prepend. destruct (body g); [|destruct (handler g0)]; reflexivity.
Qed.

Lemma trace_of_prepend {A : Type} t (r : result A) :
  trace_of (prepend t r) = t ++ trace_of r.
Proof. destruct r; reflexivity. Qed.

Lemma globals_of_prepend {A : Type} t (r : result A) :
  globals_of (prepend t r) = globals_of r.
Proof. destruct r; reflexivity. Qed.

Lemma completed_prepend {A : Type} t (r : result A) :
  completed (prepend t r) = completed r.
Proof. destruct r; reflexivity. Qed.

Lemma mode_writes_app t1 t2 :
  mode_writes (t1 ++ t2) = mode_writes t1 ++ mode_writes t2.
Proof.
  induction t1 as [|ev t1 IH]; [reflexivity|].
  destruct ev; cbn [mode_writes app]; rewrite IH; reflexivity.
Qed.

Lemma quiet_app t1 t2 : quiet t1 -> quiet t2 -> quiet (t1 ++ t2).
Proof.
  intros [W1 L1] [W2 L2]. split.
  - rewrite mode_writes_app, W1, W2. reflexivity.
  - rewrite existsb_app, L1, L2. reflexivity.
Qed.

Lemma quiet_nil : quiet [].
Proof. split; reflexivity. Qed.

Lemma telemetry_within_app paths t1 t2 :
  telemetry_within paths t1 -> telemetry_within paths t2 ->
  telemetry_within paths (t1 ++ t2).
Proof.
  intros H1 H2 p x Hin. apply in_app_or in Hin. destruct Hin; eauto.
Qed.

Lemma telemetry_within_incl paths paths' t :
  incl paths paths' -> telemetry_within paths t -> telemetry_within paths' t.
Proof. intros Hi Ht p x Hin. apply Hi. eauto. Qed.

(** Symbolic execution of a section: unfold the monad at the head of the
    equation [H] and split on the condition the evaluation is stuck on. *)
Ltac run_in H :=
  repeat (cbv beta iota delta [bind ret load store debug raise emit try_except
                      GetValue number info error sleep sys_exit SetMode] in H;
          cbn [grid_import_debounce grid_import_timer grid_export_debounce
               grid_export_timer feed_in_unstable feed_in_stable
               feed_in_stable_timer charge_unstable charge_stable
               charge_stable_timer mode_current mode_change_lock_timer
               output_enabled
               set_grid_import_debounce set_grid_import_timer
               set_grid_export_debounce set_grid_export_timer
               set_feed_in_unstable set_feed_in_stable
               set_feed_in_stable_timer set_charge_unstable set_charge_stable
               set_charge_stable_timer set_mode_current
               set_mode_change_lock_timer set_output_enabled app] in H;
          match type of H with
          | context [match ?c with Some _ => _ | None => _ end] =>
              lazymatch c with
              | context [if _ then _ else _] => fail
              | _ => destruct c eqn:?
              end
          | context [match ?c with Int32 _ => _ | Num _ => _ | NonNum => _ end] =>
              is_var c; destruct c
          | context [if ?c then _ else _] =>
              lazymatch c with
              | context [if _ then _ else _] => fail
              | _ => destruct c eqn:?
              end
          end).

(** Discharge a fact about the publications of an explicit trace. *)
Ltac in_trace :=
  let p := fresh "p" in
  let x := fresh "x" in
  let Hin := fresh "Hin" in
  intros; cbn [publishes In trace_of] in *;
  repeat match goal with
         | H : _ \/ _ |- _ => destruct H
         | H : False |- _ => destruct H
         | H : Debug _ _ = Debug _ _ |- _ => inversion H; clear H; subst
         | H : _ = Debug _ _ |- _ => discriminate H
         end.

(** Compare the globals reached with what the step functions give, under
    the conditions collected on the way. *)
Ltac agree :=
  cbv beta iota delta [feed_in_step charge_step debounce countdown
                       feed_in_candidate charge_candidate stabilize];
  cbn [grid_import_debounce grid_import_timer grid_export_debounce
       grid_export_timer feed_in_unstable feed_in_stable
       feed_in_stable_timer charge_unstable charge_stable
       charge_stable_timer mode_current mode_change_lock_timer
       output_enabled];
  repeat match goal with
         | H : ?c = _ |- context [?c] => rewrite H
         end;
  try reflexivity.

Lemma feed_in_request_outcome env fa rl g r :
  feed_in_request env fa rl g = r ->
  telemetry_within feed_in_paths (trace_of r)
  /\ quiet (trace_of r)
  /\ charge_fields (globals_of r) = charge_fields g
  /\ mode_fields (globals_of r) = mode_fields g
  /\ (forall x, publishes (trace_of r) "/FeedInRequest" x ->
        x = PBool (feed_in_candidate fa (feed_in_stable g)
                     (grid_import_timer (globals_of r)) rl))
  /\ match r with
     | Val _ g' t =>
         g' = feed_in_step fa rl g
         /\ publishes t "/FeedInRequest"
              (PBool (feed_in_candidate fa (feed_in_stable g)
                        (grid_import_timer g') rl))
     | Exc e _ _ => e = Error
     end.
Proof.
  intros H. destruct g. unfold feed_in_request in H.
  run_in H.
  all: subst r; cbn [trace_of globals_of].
  all: split; [ unfold telemetry_within; in_trace; cbn; tauto |].
  all: split; [ split; reflexivity |].
  all: split; [ reflexivity |].
  all: split; [ reflexivity |].
  all: split; [ in_trace; reflexivity |].
  all: try reflexivity.
  all: split; [| cbn; tauto].
  all: agree.
Qed.

Lemma charge_request_outcome env ca rl pvm g r :
  charge_request env ca rl pvm g = r ->
  telemetry_within charge_paths (trace_of r)
  /\ quiet (trace_of r)
  /\ feed_in_fields (globals_of r) = feed_in_fields g
  /\ mode_fields (globals_of r) = mode_fields g
  /\ (forall x, publishes (trace_of r) "/ChargeRequest" x ->
        x = PBool (charge_candidate ca (charge_stable g)
                     (grid_export_timer (globals_of r)) rl pvm))
  /\ match r with
     | Val _ g' t =>
         g' = charge_step ca rl pvm g
         /\ publishes t "/ChargeRequest"
              (PBool (charge_candidate ca (charge_stable g)
                        (grid_export_timer g') rl pvm))
     | Exc e _ _ => e = Error
     end.
Proof.
  intros H. destruct g. unfold charge_request in H.
  run_in H.
  all: subst r; cbn [trace_of globals_of].
  all: split; [ unfold telemetry_within; in_trace; cbn; tauto |].
  all: split; [ split; reflexivity |].
  all: split; [ reflexivity |].
  all: split; [ reflexivity |].
  all: split; [ in_trace; reflexivity |].
  all: try reflexivity.
  all: split; [| cbn; tauto].
  all: agree.
Qed.

(** The pair (mode_current, mode_change_lock_timer) the lock of lines
    331-351 starts from: the globals, or after a resynchronisation (lines
    321-324) the mode just read and 0; [None] when that read raises. *)
Definition lock_start (env : Env) (g : Globals) : option (value * Z) :=
  if resync env g then
    match Mode env with
    | Some m => Some (m, 0)
    | None => None
    end
  else Some (mode_current g, mode_change_lock_timer g).

(** What a tick that published [mode_new] as desired mode did about it. *)
Definition lock_facts {A : Type} (env : Env) (g : Globals) (mode_new : Z)
    (r : result A) : Prop :=
  match lock_start env g with
  | None => quiet (trace_of r) /\ completed r = false
  | Some (current0, lock0) =>
      let '(current, lock, writes) :=
        relock (marker_file env) mode_new current0 lock0 in
      (mode_writes (trace_of r) = [] \/ mode_writes (trace_of r) = writes)
      /\ (existsb is_change_log (trace_of r) = true ->
          (lock0 >? 0) = false /\ py_eq current0 mode_new = false)
      /\ (completed r = true ->
          mode_fields (globals_of r) = (current, lock, marker_file env)
          /\ mode_writes (trace_of r) = writes
          /\ existsb is_change_log (trace_of r)
             = negb (lock0 >? 0) && negb (py_eq current0 mode_new))
  end.

Lemma apply_mode_outcome env mode_new fa ca grid ess pv rl tl pvm g r :
  apply_mode env mode_new fa ca grid ess pv rl tl pvm g = r ->
  telemetry_within mode_paths (trace_of r)
  /\ feed_in_fields (globals_of r) = feed_in_fields g
  /\ charge_fields (globals_of r) = charge_fields g
  /\ (forall x, publishes (trace_of r) "/Mode" x -> x = PVal (Num mode_new))
  /\ (completed r = true -> publishes (trace_of r) "/Mode" (PVal (Num mode_new)))
  /\ (quiet (trace_of r) /\ completed r = false \/ lock_facts env g mode_new r)
  /\ match r with
     | Val _ _ _ => True
     | Exc e _ _ => e = Error
     end.
Proof.
  intros H. destruct g as [d1 t1 d2 t2 fu fs ft cu cs ct mc lk oe].
  unfold apply_mode in H.
  revert H. destruct (marker_file env) eqn:Hm; destruct oe; intros H.
  all: cbn [andb negb] in H; run_in H.
  all: try solve [exfalso;
                  match goal with Hc : _ = _ :> bool |- _ => discriminate Hc end].
  all: subst r; cbn [trace_of globals_of completed].
  all: split; [ unfold telemetry_within; in_trace; cbn; tauto |].
  all: split; [ reflexivity |].
  all: split; [ reflexivity |].
  all: split; [ in_trace; reflexivity |].
  all: split; [ intros; try discriminate; cbn; tauto |].
  all: split; [| try reflexivity; exact I].
  all: try solve [left; split; [split; reflexivity | reflexivity]].
  all: right.
  all: repeat match goal with
              | H : negb _ = true |- _ => apply negb_true_iff in H
              | H : negb _ = false |- _ => apply negb_false_iff in H
              end.
  all: cbv beta iota delta [lock_facts lock_start resync relock];
       repeat first
         [ progress cbn [mode_current mode_change_lock_timer output_enabled
                         andb negb mode_writes existsb is_change_log orb
                         trace_of globals_of completed app mode_fields
                         set_mode_current set_mode_change_lock_timer
                         set_output_enabled]
         | match goal with
           | H : ?c = _ |- context [?c] => rewrite H
           end
         | match goal with
           | |- context [if ?c then _ else _] => destruct c eqn:?
           end ].
  all: try (split; [split; reflexivity | reflexivity]).
  all: try (split; [auto | split; [ intros; try discriminate; auto
                                  | intros; try discriminate; repeat split; auto ]]).
Qed.

Lemma overall_mode_apply env fa ca grid ess pv rl tl pvm g :
  overall_mode env fa ca grid ess pv rl tl pvm g
  = apply_mode env (mode_select (feed_in_stable g) (charge_stable g))
      fa ca grid ess pv rl tl pvm g.
Proof.
  unfold overall_mode, bind, load, mode_select.
  destruct (feed_in_stable g), (charge_stable g); cbn [Bool.eqb app];
    destruct (apply_mode _ _ _ _ _ _ _ _ _ _ g); reflexivity.
Qed.

(** ** Readings after the fallbacks (lines 130-171) *)

Definition allow_flags (env : Env) : bool * bool :=
  match DisableFeedIn env, DisableCharge env with
  | Some v, Some w =>
      if sink_ok env "/FeedInAllowed" && sink_ok env "/ChargeAllowed"
      then (py_eq v 0, py_eq w 0)
      else (true, true)
  | _, _ => (true, true)
  end.

Definition ess_reading (env : Env) : value :=
  match EssPower env with
  | Some v =>
      if sink_ok env "/EssPower"
      then (if negb (is_Int32 v) then Num 0 else v)
      else Num 0
  | None => Num 0
  end.

Definition grid_reading (env : Env) : option value :=
  match GridPower env with
  | Some v => if sink_ok env "/GridPower" then Some v else None
  | None => None
  end.

Definition pv_reading (env : Env) : value * value :=
  match PvStatus env, PvPower env with
  | Some s, Some p =>
      if sink_ok env "/PvPower" && sink_ok env "/PvInverterStatus"
      then (s, p)
      else (Num 0, Num (-1))
  | _, _ => (Num 0, Num (-1))
  end.

Lemma read_allow_flags_outcome env g :
  exists t, read_allow_flags env g = Val (allow_flags env) g t
            /\ telemetry_within reading_paths t /\ quiet t.
Proof.
  destruct (read_allow_flags env g) as [a g' t|e g' t] eqn:H;
    unfold read_allow_flags in H; run_in H; try discriminate H;
    inversion H; subst; clear H; eexists;
    (split;
     [ unfold allow_flags;
       repeat match goal with H : ?c = _ |- context [?c] => rewrite H end;
       reflexivity
     | split; [ unfold telemetry_within; in_trace; cbn; tauto
              | split; reflexivity ] ]).
Qed.

Lemma read_ess_power_outcome env g :
  exists t, read_ess_power env g = Val (ess_reading env) g t
            /\ telemetry_within reading_paths t /\ quiet t.
Proof.
  destruct (read_ess_power env g) as [a g' t|e g' t] eqn:H;
    unfold read_ess_power in H; run_in H; try discriminate H;
    inversion H; subst; clear H; eexists;
    (split;
     [ unfold ess_reading;
       repeat match goal with H : ?c = _ |- context [?c] => rewrite H end;
       reflexivity
     | split; [ unfold telemetry_within; in_trace; cbn; tauto
              | split; reflexivity ] ]).
Qed.

Lemma read_pv_outcome env g :
  exists t, read_pv env g = Val (pv_reading env) g t
            /\ telemetry_within reading_paths t /\ quiet t.
Proof.
  destruct (read_pv env g) as [a g' t|e g' t] eqn:H;
    unfold read_pv in H; run_in H; try discriminate H;
    inversion H; subst; clear H; eexists;
    (split;
     [ unfold pv_reading;
       repeat match goal with H : ?c = _ |- context [?c] => rewrite H end;
       reflexivity
     | split; [ unfold telemetry_within; in_trace; cbn; tauto
              | split; reflexivity ] ]).
Qed.

Lemma read_grid_power_outcome env g :
  match grid_reading env with
  | Some v => read_grid_power env g = Val v g [Debug "/GridPower" (PVal v)]
  | None =>
      read_grid_power env g
      = Exc SystemExit g [LogError MsgNoGridPower; Sleep 30]
  end.
Proof.
  unfold grid_reading, read_grid_power, try_except, bind, GetValue, debug,
    ret, raise, error, sleep, sys_exit, emit.
  destruct (GridPower env); [destruct (sink_ok env "/GridPower")|]; reflexivity.
Qed.

(** ** Outcome of the decision (lines 174-353) *)

Definition decision_paths : list string :=
  load_paths ++ feed_in_paths ++ charge_paths ++ mode_paths.

(** The requests a tick published are the ones of lines 221 and 280. *)
Definition candidate_facts {A : Type} (fa ca : bool) (rl : Z) (pvm : value)
    (g : Globals) (r : result A) : Prop :=
  (forall x, publishes (trace_of r) "/FeedInRequest" x ->
     x = PBool (feed_in_candidate fa (feed_in_stable g)
                  (grid_import_timer (globals_of r)) rl))
  /\ (forall x, publishes (trace_of r) "/ChargeRequest" x ->
        x = PBool (charge_candidate ca (charge_stable g)
                     (grid_export_timer (globals_of r)) rl pvm)).

(** What a tick did with the mode: nothing, or what [lock_facts] says for
    the desired mode it published. *)
Definition mode_facts {A : Type} (env : Env) (g : Globals) (r : result A) : Prop :=
  (quiet (trace_of r) /\ completed r = false)
  \/ exists mode_new,
       (forall x, publishes (trace_of r) "/Mode" x -> x = PVal (Num mode_new))
       /\ mode_new = mode_select (feed_in_stable (globals_of r))
                       (charge_stable (globals_of r))
       /\ lock_facts env g mode_new r.

(** The channels after a completed tick. *)
Definition completion_facts {A : Type} (fa ca : bool) (rl : Z) (pvm : value)
    (g : Globals) (r : result A) : Prop :=
  completed r = true ->
  feed_in_fields (globals_of r) = feed_in_fields (feed_in_step fa rl g)
  /\ charge_fields (globals_of r) = charge_fields (charge_step ca rl pvm g)
  /\ publishes (trace_of r) "/FeedInRequest"
       (PBool (feed_in_candidate fa (feed_in_stable g)
                 (grid_import_timer (globals_of r)) rl))
  /\ publishes (trace_of r) "/ChargeRequest"
       (PBool (charge_candidate ca (charge_stable g)
                 (grid_export_timer (globals_of r)) rl pvm))
  /\ publishes (trace_of r) "/Mode"
       (PVal (Num (mode_select (feed_in_stable (globals_of r))
                     (charge_stable (globals_of r))))).

Definition raises_only {A : Type} (e : exn) (r : result A) : Prop :=
  match r with
  | Val _ _ _ => True
  | Exc e' _ _ => e' = e
  end.

Lemma no_publication paths t p x :
  telemetry_within paths t -> ~ In p paths -> ~ publishes t p x.
Proof. intros Ht Hn Hp. apply Hn. exact (Ht p x Hp). Qed.

Ltac not_in_paths := cbn; intuition discriminate.

Lemma lock_start_ext env g1 g2 :
  mode_fields g1 = mode_fields g2 -> lock_start env g1 = lock_start env g2.
Proof.
  unfold mode_fields, lock_start, resync. intros H. inversion H as [[H1 H2 H3]].
  rewrite H1, H2, H3. reflexivity.
Qed.

Lemma lock_facts_ext {A : Type} env g1 g2 mode_new (r : result A) :
  mode_fields g1 = mode_fields g2 ->
  lock_facts env g1 mode_new r -> lock_facts env g2 mode_new r.
Proof.
  intros H. unfold lock_facts. rewrite (lock_start_ext env g1 g2 H). exact (fun x => x).
Qed.

Lemma lock_facts_prepend {A : Type} env g mode_new t (r : result A) :
  quiet t -> lock_facts env g mode_new r -> lock_facts env g mode_new (prepend t r).
Proof.
  intros [Hw Hl]. unfold lock_facts.
  rewrite trace_of_prepend, globals_of_prepend, completed_prepend.
  unfold quiet.
  rewrite mode_writes_app, existsb_app, Hw, Hl.
  cbn [app orb]. exact (fun x => x).
Qed.

Lemma feed_in_fields_charge_step ca rl pvm g :
  feed_in_fields (charge_step ca rl pvm g) = feed_in_fields g.
Proof.
  unfold charge_step.
  destruct (stabilize _ _) as [[u t] s]. reflexivity.
Qed.

Lemma charge_fields_feed_in_step fa rl g :
  charge_fields (feed_in_step fa rl g) = charge_fields g.
Proof.
  unfold feed_in_step.
  destruct (stabilize _ _) as [[u t] s]. reflexivity.
Qed.

Lemma charge_step_ext ca rl pvm g1 g2 :
  charge_fields g1 = charge_fields g2 ->
  charge_fields (charge_step ca rl pvm g1) = charge_fields (charge_step ca rl pvm g2).
Proof.
  unfold charge_fields, charge_step. intros H. inversion H as [[H1 H2 H3 H4 H5]].
  rewrite H1, H2, H3, H4, H5.
  destruct (stabilize _ _) as [[u t] s]. reflexivity.
Qed.

(** Lines 190-353, after the loads. *)
Definition sections (env : Env) (fa ca : bool) (grid ess pv : Z) (pvm : value) : M unit :=
  feed_in_request env fa (grid - ess);;
  charge_request env ca (grid - ess) pvm;;
  overall_mode env fa ca grid ess pv (grid - ess) (grid - ess + pv) pvm.

Lemma sections_outcome env fa ca grid ess pv pvm g r :
  sections env fa ca grid ess pv pvm g = r ->
  telemetry_within (feed_in_paths ++ charge_paths ++ mode_paths) (trace_of r)
  /\ candidate_facts fa ca (grid - ess) pvm g r
  /\ mode_facts env g r
  /\ completion_facts fa ca (grid - ess) pvm g r
  /\ raises_only Error r.
Proof.
  intros <-. unfold sections, candidate_facts, completion_facts, raises_only.
  rewrite bind_unfold.
  destruct (feed_in_request env fa (grid - ess) g) as [[] g1 t1|e1 g1 t1] eqn:Hf;
    apply feed_in_request_outcome in Hf;
    cbn [trace_of globals_of] in Hf;
    destruct Hf as (Tf & Qf & Cf & Mf & Xf & Vf).
  2:{ (* the feed-in section raised *)
    cbn [trace_of globals_of].
    split; [eapply telemetry_within_incl; [|exact Tf]; intros p; cbn; tauto|].
    split.
    { split; [exact Xf|].
      intros x Hx. exfalso. revert Hx.
      eapply no_publication; [exact Tf|not_in_paths]. }
    split; [left; split; [exact Qf|reflexivity]|].
    split; [intros Hcm; discriminate Hcm|exact Vf]. }
  destruct Vf as [-> Pf].
  rewrite bind_unfold.
  destruct (charge_request env ca (grid - ess) pvm (feed_in_step fa (grid - ess) g))
    as [[] g2 t2|e2 g2 t2] eqn:Hc;
    apply charge_request_outcome in Hc;
    cbn [trace_of globals_of] in Hc;
    destruct Hc as (Tc & Qc & Fc & Mc & Xc & Vc).
  2:{ (* the charge section raised *)
    cbn [prepend trace_of globals_of completed].
    assert (Ht : grid_import_timer g2 = grid_import_timer (feed_in_step fa (grid - ess) g))
      by (unfold feed_in_fields in Fc; congruence).
    assert (Hs : charge_stable (feed_in_step fa (grid - ess) g) = charge_stable g)
      by (pose proof (charge_fields_feed_in_step fa (grid - ess) g) as Hq;
          unfold charge_fields in Hq; congruence).
    split.
    { apply telemetry_within_app;
        (eapply telemetry_within_incl; [|eassumption]); intros p; cbn; tauto. }
    split.
    { split.
      - intros x Hx. apply in_app_or in Hx. destruct Hx as [Hx|Hx].
        + rewrite Ht. apply Xf. exact Hx.
        + exfalso. revert Hx. eapply no_publication; [exact Tc|not_in_paths].
      - intros x Hx. apply in_app_or in Hx. destruct Hx as [Hx|Hx].
        + exfalso. revert Hx. eapply no_publication; [exact Tf|not_in_paths].
        + rewrite <- Hs. apply Xc. exact Hx. }
    split; [left; split; [apply quiet_app; assumption|reflexivity]|].
    split; [intros Hcm; discriminate Hcm|exact Vc]. }
  destruct Vc as [-> Pc].
  rewrite overall_mode_apply.
  set (g2 := charge_step ca (grid - ess) pvm (feed_in_step fa (grid - ess) g)) in *.
  destruct (apply_mode env (mode_select (feed_in_stable g2) (charge_stable g2))
              fa ca grid ess pv (grid - ess) (grid - ess + pv) pvm g2) as [a g3 t3|e3 g3 t3] eqn:Ha.
  all: apply apply_mode_outcome in Ha;
    cbn [trace_of globals_of] in Ha;
    destruct Ha as (Ta & Fa & Ca & Ua & Pa & La & Va).
  all: cbn [prepend trace_of globals_of completed].
  all: assert (Hs : charge_stable (feed_in_step fa (grid - ess) g) = charge_stable g)
      by (pose proof (charge_fields_feed_in_step fa (grid - ess) g) as Hq;
          unfold charge_fields in Hq; congruence).
  all: assert (Hf3 : feed_in_fields g3 = feed_in_fields (feed_in_step fa (grid - ess) g))
      by (rewrite Fa; unfold g2; apply feed_in_fields_charge_step).
  all: assert (Ht : grid_import_timer g3 = grid_import_timer (feed_in_step fa (grid - ess) g))
      by (unfold feed_in_fields in Hf3; congruence).
  all: assert (Ht' : grid_export_timer g3 = grid_export_timer g2)
      by (unfold charge_fields in Ca; congruence).
  all: assert (Hms : mode_select (feed_in_stable g2) (charge_stable g2)
                     = mode_select (feed_in_stable g3) (charge_stable g3))
      by (unfold feed_in_fields in Fa; unfold charge_fields in Ca; congruence).
  all: assert (Hmf : mode_fields g2 = mode_fields g)
      by exact (eq_trans Mc Mf).
  all: assert (CF : candidate_facts fa ca (grid - ess) pvm g
                      (prepend t1 (prepend t2 (Exc Error g3 t3 : result unit)))).
  all: try solve [
    unfold candidate_facts;
    split; cbn [prepend trace_of globals_of]; intros x Hx;
    (apply in_app_or in Hx; destruct Hx as [Hx|Hx];
     [|apply in_app_or in Hx; destruct Hx as [Hx|Hx]]);
    first
      [ rewrite Ht; apply Xf; exact Hx
      | rewrite Ht', <- Hs; apply Xc; exact Hx
      | exfalso; revert Hx; eapply no_publication; [eassumption|not_in_paths] ] ].
  all: unfold candidate_facts in CF; destruct CF as [CF1 CF2];
    cbn [prepend trace_of globals_of] in CF1, CF2.
  all: assert (TW : telemetry_within (feed_in_paths ++ charge_paths ++ mode_paths)
                     (t1 ++ t2 ++ t3))
      by (repeat apply telemetry_within_app;
          (eapply telemetry_within_incl; [|eassumption]); intros p; cbn; tauto).
  all: assert (MF : forall (rr : result unit),
                  trace_of rr = t3 -> globals_of rr = g3 ->
                  (quiet t3 /\ completed rr = false
                   \/ lock_facts env g2 (mode_select (feed_in_stable g2) (charge_stable g2)) rr) ->
                  mode_facts env g (prepend t1 (prepend t2 rr))).
  all: try solve [
    intros rr Hrt Hrg [[Hq Hcm]|Hl];
    [ left; rewrite !trace_of_prepend, !completed_prepend, Hrt;
      split; [repeat apply quiet_app; assumption|exact Hcm]
    | right; exists (mode_select (feed_in_stable g2) (charge_stable g2));
      rewrite !trace_of_prepend, !globals_of_prepend, Hrt, Hrg;
      split; [|split];
      [ intros x Hx;
        (apply in_app_or in Hx; destruct Hx as [Hx|Hx];
         [|apply in_app_or in Hx; destruct Hx as [Hx|Hx]]);
        first [ apply Ua; exact Hx
              | exfalso; revert Hx; eapply no_publication; [eassumption|not_in_paths] ]
      | exact Hms
      | apply lock_facts_prepend; [assumption|];
        apply lock_facts_prepend; [assumption|];
        eapply lock_facts_ext; [exact Hmf|exact Hl] ] ] ].
  - (* completed *)
    split; [exact TW|]. split; [split; assumption|].
    split; [apply (MF (Val a g3 t3)); [reflexivity|reflexivity|exact La]|].
    split; [|exact I].
    intros _. split; [exact Hf3|]. split.
    { rewrite Ca. unfold g2. apply charge_step_ext. apply charge_fields_feed_in_step. }
    split; [apply in_or_app; left; rewrite Ht; exact Pf|].
    split; [apply in_or_app; right; apply in_or_app; left; rewrite Ht', <- Hs; exact Pc|].
    apply in_or_app; right; apply in_or_app; right. rewrite <- Hms. apply Pa. reflexivity.
  - split; [exact TW|]. split; [split; assumption|].
    split; [apply (MF (Exc e3 g3 t3)); [reflexivity|reflexivity|exact La]|].
    split; [intros Hcm; discriminate Hcm|exact Va].
Qed.

(** ** Outcome of a tick *)

Definition num_of (v : value) : option Z :=
  match v with
  | Int32 n | Num n => Some n
  | NonNum => None
  end.

(** Line 178, on the readings after the fallbacks. *)
Definition residual_load_of (env : Env) : option Z :=
  match grid_reading env with
  | Some grid_power =>
      match num_of grid_power, num_of (ess_reading env) with
      | Some grid, Some ess => Some (grid - ess)
      | _, _ => None
      end
  | None => None
  end.

Lemma prepend_nil {A : Type} (r : result A) : prepend [] r = r.
Proof. destruct r; reflexivity. Qed.

Lemma decide_unfold env fa ca essv gridv pvm pvp g :
  decide env fa ca essv gridv pvm pvp g =
  match num_of gridv, num_of essv with
  | Some grid, Some ess =>
      let rl := PVal (Num (grid - ess)) in
      if sink_ok env "/ResidualLoad" then
        match num_of pvp with
        | Some pv =>
            if sink_ok env "/TotalLoad" then
              prepend [Debug "/ResidualLoad" rl;
                       Debug "/TotalLoad" (PVal (Num (grid - ess + pv)))]
                (sections env fa ca grid ess pv pvm g)
            else Exc Error g [Debug "/ResidualLoad" rl]
        | None => Exc Error g [Debug "/ResidualLoad" rl]
        end
      else Exc Error g []
  | _, _ => Exc Error g []
  end.
Proof.
  unfold decide, sections.
  destruct gridv as [a|a|], essv as [b|b|]; cbn [num_of];
    rewrite bind_unfold; cbv beta iota delta [number ret raise];
    try reflexivity.
  all: rewrite prepend_nil, bind_unfold; cbv beta iota delta [number ret raise];
    try reflexivity.
  all: rewrite prepend_nil, bind_unfold; unfold debug at 1;
    destruct (sink_ok env "/ResidualLoad"); [|reflexivity].
  all: rewrite bind_unfold.
  all: destruct pvp as [c|c|]; cbn [num_of]; cbv beta iota delta [number ret raise];
    try reflexivity.
  all: rewrite prepend_nil, bind_unfold; unfold debug at 1;
    destruct (sink_ok env "/TotalLoad"); [|reflexivity].
  all: match goal with
       | |- context [prepend _ (prepend _ ?x)] => destruct x
       end; reflexivity.
Qed.

(** Lines 355-362: what the last [try] and the [return] make of the
    outcome of the decision. *)
Definition finish (r : result unit) : result bool :=
  match r with
  | Val _ g t => Val true g t
  | Exc _ g t =>
      Exc SystemExit g
        (t ++ [LogError MsgException; LogError MsgTraceback; Sleep 10])
  end.

Lemma finish_unfold (m : M unit) g :
  (try_except m (error MsgException;; error MsgTraceback;; sleep 10;; sys_exit);;
   ret true) g = finish (m g).
Proof.
  rewrite bind_unfold, try_except_unfold.
  destruct (m g) as [[] g1 t1|e g1 t1]; cbn.
  - rewrite app_nil_r. reflexivity.
  - reflexivity.
Qed.

(** An outcome whose effects are those of [r] between two stretches that
    touch neither the mode nor the decision's telemetry. *)
Definition frames {A B : Type} (pre post : list event) (r : result A)
    (r' : result B) : Prop :=
  globals_of r' = globals_of r
  /\ completed r' = completed r
  /\ trace_of r' = pre ++ trace_of r ++ post
  /\ quiet pre /\ quiet post
  /\ telemetry_within (reading_paths ++ load_paths) pre
  /\ telemetry_within [] post.

Lemma frames_publishes {A B : Type} pre post (r : result A) (r' : result B) p x :
  frames pre post r r' ->
  ~ In p (reading_paths ++ load_paths) ->
  publishes (trace_of r') p x <-> publishes (trace_of r) p x.
Proof.
  intros (_ & _ & Ht & _ & _ & Tpre & Tpost) Hp. unfold publishes. rewrite Ht.
  split.
  - intros H. apply in_app_or in H. destruct H as [H|H].
    + exfalso. exact (Hp (Tpre p x H)).
    + apply in_app_or in H. destruct H as [H|H]; [exact H|].
      exfalso. exact (Tpost p x H).
  - intros H. apply in_or_app. right. apply in_or_app. left. exact H.
Qed.

Lemma frames_lock_facts {A B : Type} env g mode_new pre post
    (r : result A) (r' : result B) :
  frames pre post r r' ->
  lock_facts env g mode_new r -> lock_facts env g mode_new r'.
Proof.
  intros (Hg & Hc & Ht & [W1 L1] & [W2 L2] & _ & _). unfold lock_facts, quiet.
  rewrite Hg, Hc, Ht, !mode_writes_app, !existsb_app, W1, W2, L1, L2.
  cbn [app orb]. rewrite app_nil_r, orb_false_r. exact (fun x => x).
Qed.

Lemma frames_candidate_facts {A B : Type} fa ca rl pvm g pre post
    (r : result A) (r' : result B) :
  frames pre post r r' ->
  candidate_facts fa ca rl pvm g r -> candidate_facts fa ca rl pvm g r'.
Proof.
  intros F [H1 H2]. pose proof F as (Hg & _). unfold candidate_facts.
  rewrite Hg. split; intros x Hx.
  - apply H1. apply (frames_publishes _ _ _ _ _ _ F); [not_in_paths|exact Hx].
  - apply H2. apply (frames_publishes _ _ _ _ _ _ F); [not_in_paths|exact Hx].
Qed.

Lemma frames_completion_facts {A B : Type} fa ca rl pvm g pre post
    (r : result A) (r' : result B) :
  frames pre post r r' ->
  completion_facts fa ca rl pvm g r -> completion_facts fa ca rl pvm g r'.
Proof.
  intros F H. pose proof F as (Hg & Hc & _). unfold completion_facts.
  rewrite Hg, Hc. intros Hcm. destruct (H Hcm) as (H1 & H2 & H3 & H4 & H5).
  repeat split; try assumption.
  all: apply (frames_publishes _ _ _ _ _ _ F); [not_in_paths|assumption].
Qed.

Lemma frames_mode_facts {A B : Type} env g pre post
    (r : result A) (r' : result B) :
  frames pre post r r' ->
  mode_facts env g r -> mode_facts env g r'.
Proof.
  intros F H. pose proof F as (Hg & Hc & Ht & Qpre & Qpost & _).
  destruct H as [[Hq Hn]|(mode_new & Hu & Hm & Hl)].
  - left. rewrite Ht, Hc. split; [|exact Hn].
    apply quiet_app; [exact Qpre|]. apply quiet_app; assumption.
  - right. exists mode_new. rewrite Hg. split; [|split].
    + intros x Hx. apply Hu.
      apply (frames_publishes _ _ _ _ _ _ F); [not_in_paths|exact Hx].
    + exact Hm.
    + eapply frames_lock_facts; eassumption.
Qed.

Lemma update_ess_mode_unfold env g :
  exists ta te tp,
    (telemetry_within reading_paths ta /\ quiet ta)
    /\ (telemetry_within reading_paths te /\ quiet te)
    /\ (telemetry_within reading_paths tp /\ quiet tp)
    /\ update_ess_mode env g =
       prepend ta (prepend te
         match grid_reading env with
         | None => Exc SystemExit g [LogError MsgNoGridPower; Sleep 30]
         | Some grid_power =>
             prepend [Debug "/GridPower" (PVal grid_power)] (prepend tp
               (finish (decide env (fst (allow_flags env)) (snd (allow_flags env))
                          (ess_reading env) grid_power
                          (fst (pv_reading env)) (snd (pv_reading env)) g)))
         end).
Proof.
  destruct (read_allow_flags_outcome env g) as (ta & Ea & Ta & Qa).
  destruct (read_ess_power_outcome env g) as (te & Ee & Te & Qe).
  destruct (read_pv_outcome env g) as (tp & Ep & Tp & Qp).
  exists ta, te, tp.
  split; [split; assumption|]. split; [split; assumption|].
  split; [split; assumption|].
  unfold update_ess_mode.
  rewrite bind_unfold, Ea. f_equal.
  destruct (allow_flags env) as [fa ca]. cbn [fst snd].
  rewrite bind_unfold, Ee. f_equal.
  rewrite bind_unfold.
  pose proof (read_grid_power_outcome env g) as Eg.
  destruct (grid_reading env) as [gv|]; rewrite Eg; [|reflexivity].
  f_equal. rewrite bind_unfold, Ep. f_equal.
  destruct (pv_reading env) as [pvm pvp]. cbn [fst snd].
  apply finish_unfold.
Qed.

(** What every tick satisfies, whatever its outcome. *)
Definition tick_facts (env : Env) (g : Globals) (r : result bool) : Prop :=
  let fa := fst (allow_flags env) in
  let ca := snd (allow_flags env) in
  let pvm := fst (pv_reading env) in
  raises_only SystemExit r
  /\ (forall b g' t, r = Val b g' t -> b = true)
  /\ mode_facts env g r
  /\ (forall x, publishes (trace_of r) "/ResidualLoad" x ->
        exists rl, residual_load_of env = Some rl /\ x = PVal (Num rl))
  /\ (forall rl, residual_load_of env = Some rl ->
        candidate_facts fa ca rl pvm g r /\ completion_facts fa ca rl pvm g r)
  /\ (completed r = true ->
        exists rl, residual_load_of env = Some rl
                   /\ publishes (trace_of r) "/ResidualLoad" (PVal (Num rl))).

Lemma early_exit_facts env g (r : result bool) :
  raises_only SystemExit r ->
  completed r = false ->
  quiet (trace_of r) ->
  telemetry_within (reading_paths ++ load_paths) (trace_of r) ->
  (forall x, publishes (trace_of r) "/ResidualLoad" x ->
     exists rl, residual_load_of env = Some rl /\ x = PVal (Num rl)) ->
  tick_facts env g r.
Proof.
  intros Hr Hc Hq Ht Hp. unfold tick_facts.
  split; [exact Hr|]. split.
  { intros b g' t ->. discriminate Hc. }
  split; [left; split; assumption|].
  split; [exact Hp|]. split.
  - intros rl _. split.
    + split; intros x Hx; exfalso; revert Hx;
        (eapply no_publication; [exact Ht|not_in_paths]).
    + intros Hcm. rewrite Hc in Hcm. discriminate Hcm.
  - intros Hcm. rewrite Hc in Hcm. discriminate Hcm.
Qed.

Lemma telemetry_within_cons paths ev t :
  match ev with
  | Debug p _ => In p paths
  | _ => True
  end ->
  telemetry_within paths t -> telemetry_within paths (ev :: t).
Proof.
  intros He Ht p x [Hx|Hx]; [subst ev; exact He|exact (Ht p x Hx)].
Qed.

Lemma telemetry_within_nil paths : telemetry_within paths [].
Proof. intros p x []. Qed.

Lemma quiet_cons ev t :
  match ev with
  | SetValue _ | LogInfo (MsgChange _ _ _) => False
  | _ => True
  end ->
  quiet t -> quiet (ev :: t).
Proof.
  intros He [Hw Hl]. split.
  - destruct ev; cbn [mode_writes]; try exact Hw. destruct He.
  - cbn [existsb]. rewrite Hl.
    destruct ev as [| m | | |]; try reflexivity. destruct m; try reflexivity.
    destruct He.
Qed.

Ltac within_paths :=
  repeat first
    [ apply telemetry_within_nil
    | apply telemetry_within_app
    | apply telemetry_within_cons; [cbn; tauto|]
    | eapply telemetry_within_incl; [|eassumption]; intros ?; cbn; tauto ].

Ltac quiet_trace :=
  repeat first
    [ assumption
    | apply quiet_nil
    | apply quiet_app
    | apply quiet_cons; [exact I|] ].

Lemma tick_outcome env g : tick_facts env g (update_ess_mode env g).
Proof.
  destruct (update_ess_mode_unfold env g)
    as (ta & te & tp & [Ta Qa] & [Te Qe] & [Tp Qp] & E).
  rewrite E. clear E.
  destruct (grid_reading env) as [gv|] eqn:Hgrid.
  2:{ apply early_exit_facts; cbn [prepend trace_of completed raises_only];
        try reflexivity.
      - quiet_trace.
      - within_paths.
      - intros x Hx. exfalso. revert Hx. eapply no_publication;
          [ instantiate (1 := reading_paths); within_paths | not_in_paths ]. }
  rewrite decide_unfold.
  assert (RL : forall a b, num_of gv = Some a -> num_of (ess_reading env) = Some b ->
                 residual_load_of env = Some (a - b)).
  { intros a b Ha Hb. unfold residual_load_of. rewrite Hgrid, Ha, Hb. reflexivity. }
  destruct (num_of gv) as [a|] eqn:Ha.
  2:{ apply early_exit_facts; cbn [prepend finish trace_of completed raises_only app];
        try reflexivity.
      - quiet_trace.
      - within_paths.
      - intros x Hx. exfalso. revert Hx. eapply no_publication;
          [ instantiate (1 := reading_paths); within_paths | not_in_paths ]. }
  destruct (num_of (ess_reading env)) as [b|] eqn:Hb.
  2:{ apply early_exit_facts; cbn [prepend finish trace_of completed raises_only app];
        try reflexivity.
      - quiet_trace.
      - within_paths.
      - intros x Hx. exfalso. revert Hx. eapply no_publication;
          [ instantiate (1 := reading_paths); within_paths | not_in_paths ]. }
  specialize (RL a b eq_refl eq_refl).
  cbv zeta.
  destruct (sink_ok env "/ResidualLoad").
  2:{ apply early_exit_facts; cbn [prepend finish trace_of completed raises_only app];
        try reflexivity.
      - quiet_trace.
      - within_paths.
      - intros x Hx. exfalso. revert Hx. eapply no_publication;
          [ instantiate (1 := reading_paths); within_paths | not_in_paths ]. }
  assert (PRL : forall (t1 t2 : list event) x,
            telemetry_within (reading_paths ++ feed_in_paths ++ charge_paths
                              ++ mode_paths ++ ["/TotalLoad"]) t2 ->
            publishes (ta ++ te ++ Debug "/GridPower" (PVal gv) :: tp
                       ++ Debug "/ResidualLoad" (PVal (Num (a - b))) :: t2)
              "/ResidualLoad" x ->
            exists rl, residual_load_of env = Some rl /\ x = PVal (Num rl)).
  { intros _ t2 x Ht2 Hx. exists (a - b). split; [exact RL|].
    unfold publishes in Hx.
    repeat (apply in_app_or in Hx; destruct Hx as [Hx|Hx];
            [exfalso; revert Hx; eapply no_publication; [eassumption|not_in_paths]|]).
    destruct Hx as [Hx|Hx]; [discriminate Hx|].
    apply in_app_or in Hx; destruct Hx as [Hx|Hx];
      [exfalso; revert Hx; eapply no_publication; [eassumption|not_in_paths]|].
    destruct Hx as [Hx|Hx]; [inversion Hx; reflexivity|].
    exfalso; revert Hx; eapply no_publication; [eassumption|not_in_paths]. }
  destruct (num_of (snd (pv_reading env))) as [c|] eqn:Hc.
  2:{ apply early_exit_facts; cbn [prepend finish trace_of completed raises_only app];
        try reflexivity.
      - quiet_trace.
      - within_paths.
      - intros x Hx. apply (PRL [] _ x) in Hx; [exact Hx|].
        unfold telemetry_within; in_trace. }
  destruct (sink_ok env "/TotalLoad").
  2:{ apply early_exit_facts; cbn [prepend finish trace_of completed raises_only app];
        try reflexivity.
      - quiet_trace.
      - within_paths.
      - intros x Hx. apply (PRL [] _ x) in Hx; [exact Hx|].
        unfold telemetry_within; in_trace. }
  (* the sections ran *)
  destruct (sections_outcome env (fst (allow_flags env)) (snd (allow_flags env))
              a b c (fst (pv_reading env)) g _ eq_refl)
    as (TS & CS & MS & KS & XS).
  set (r0 := sections env (fst (allow_flags env)) (snd (allow_flags env))
               a b c (fst (pv_reading env)) g) in *.
  set (pre := ta ++ te ++ Debug "/GridPower" (PVal gv) :: tp
              ++ [Debug "/ResidualLoad" (PVal (Num (a - b)));
                  Debug "/TotalLoad" (PVal (Num (a - b + c)))]).
  set (post := if completed r0 then []
               else [LogError MsgException; LogError MsgTraceback; Sleep 10]).
  match goal with |- tick_facts env g ?x => set (r := x) end.
  assert (F : frames pre post r0 r).
  { unfold frames, r, pre, post.
    destruct r0 as [[] g1 t1|e g1 t1];
      cbn [prepend finish trace_of globals_of completed].
    all: split; [reflexivity|]. all: split; [reflexivity|].
    all: split; [rewrite <- ?app_assoc; cbn [app]; rewrite ?app_nil_r;
                 rewrite <- ?app_assoc; reflexivity|].
    all: split; [quiet_trace|]. all: split; [quiet_trace|].
    all: split; [within_paths|].
    all: unfold telemetry_within; in_trace. }
  unfold tick_facts.
  split.
  { unfold r. destruct r0; cbn [prepend finish raises_only]; reflexivity. }
  split.
  { unfold r. intros bb g' t. destruct r0; cbn [prepend finish]; intros Hv;
      inversion Hv; reflexivity. }
  split; [eapply frames_mode_facts; eassumption|].
  split.
  { intros x Hx. destruct F as (_ & _ & Ht & _ & _ & _ & Tpost).
    rewrite Ht in Hx. unfold pre in Hx. rewrite <- !app_assoc in Hx.
    cbn [app] in Hx. rewrite <- !app_assoc in Hx. cbn [app] in Hx.
    apply (PRL [] _ x) in Hx; [exact Hx|].
    intros p y Hy. destruct Hy as [Hy|Hy]; [inversion Hy; cbn; tauto|].
    apply in_app_or in Hy. destruct Hy as [Hy|Hy].
    - apply TS in Hy. revert Hy. cbn. tauto.
    - exfalso. exact (Tpost p y Hy). }
  split.
  { intros rl Hrl. rewrite RL in Hrl. inversion Hrl; subst rl.
    split; [eapply frames_candidate_facts|eapply frames_completion_facts];
      eassumption. }
  intros _. exists (a - b). split; [exact RL|].
  destruct F as (_ & _ & Ht & _). unfold publishes. rewrite Ht. unfold pre.
  apply in_or_app. left. apply in_or_app. right. apply in_or_app. right.
  right. apply in_or_app. right. left. reflexivity.
Qed.

(** ** The mode lock over a run *)

Lemma writes_in_cons r rs :
  writes_in (r :: rs)
  = (List.length (mode_writes (trace_of r)) + writes_in rs)%nat.
Proof. unfold writes_in. cbn [flat_map]. apply length_app. Qed.

Lemma relock_writes enabled mode_new current lock :
  (List.length (snd (relock enabled mode_new current lock)) <= 1)%nat.
Proof.
  unfold relock. destruct (lock >? 0); [cbn; lia|].
  destruct (negb (py_eq current mode_new)); [destruct enabled|]; cbn; lia.
Qed.

Lemma tick_writes_le_1 env g :
  (List.length (mode_writes (trace_of (update_ess_mode env g))) <= 1)%nat.
Proof.
  destruct (tick_outcome env g) as (_ & _ & M & _).
  destruct M as [[[W _] _]|(mode_new & _ & _ & L)]; [rewrite W; cbn; lia|].
  unfold lock_facts in L. destruct (lock_start env g) as [[c0 l0]|].
  - pose proof (relock_writes (marker_file env) mode_new c0 l0) as R.
    destruct (relock (marker_file env) mode_new c0 l0) as [[c l] ws].
    cbn [snd] in R. destruct L as ([W|W] & _); rewrite W; cbn; lia.
  - destruct L as [[W _] _]. rewrite W. cbn; lia.
Qed.

(** Without a resynchronisation the lock starts from the globals. *)
Lemma lock_start_enabled env g :
  output_enabled g = true ->
  lock_start env g = Some (mode_current g, mode_change_lock_timer g).
Proof.
  intros H. unfold lock_start, resync. rewrite H, andb_false_r. reflexivity.
Qed.

Lemma tick_enabled env g b g' t :
  update_ess_mode env g = Val b g' t -> output_enabled g' = marker_file env.
Proof.
  intros E. destruct (tick_outcome env g) as (_ & _ & M & _).
  rewrite E in M. cbn [trace_of globals_of completed] in M.
  destruct M as [[_ C]|(mode_new & _ & _ & L)]; [discriminate C|].
  unfold lock_facts in L. cbn [trace_of globals_of completed] in L.
  destruct (lock_start env g) as [[c0 l0]|]; [|destruct L as [_ C]; discriminate C].
  destruct (relock (marker_file env) mode_new c0 l0) as [[c l] ws].
  destruct L as (_ & _ & L). destruct (L eq_refl) as (F & _).
  unfold mode_fields in F. inversion F. reflexivity.
Qed.

(** A tick under a running lock: the timer counts down, nothing is
    written. *)
Lemma tick_locked env g :
  output_enabled g = true ->
  0 < mode_change_lock_timer g ->
  mode_writes (trace_of (update_ess_mode env g)) = []
  /\ (completed (update_ess_mode env g) = true ->
      mode_change_lock_timer (globals_of (update_ess_mode env g))
      = mode_change_lock_timer g - 1).
Proof.
  intros He Hl. destruct (tick_outcome env g) as (_ & _ & M & _).
  destruct M as [[[W _] C]|(mode_new & _ & _ & L)].
  - split; [exact W|]. intros C'. rewrite C in C'. discriminate C'.
  - unfold lock_facts in L. rewrite (lock_start_enabled env g He) in L.
    unfold relock in L.
    assert (G : (mode_change_lock_timer g >? 0) = true) by (apply Z.gtb_lt; lia).
    rewrite G in L. destruct L as ([W|W] & _ & L).
    + split; [exact W|]. intros C. destruct (L C) as (F & _).
      unfold mode_fields in F. inversion F. reflexivity.
    + split; [exact W|]. intros C. destruct (L C) as (F & _).
      unfold mode_fields in F. inversion F. reflexivity.
Qed.

(** A completed tick that wrote the mode, the switch being on before and
    after, leaves the lock at [LOCK_TIME]. *)
Lemma tick_after_write env g b g' t :
  output_enabled g = true ->
  update_ess_mode env g = Val b g' t ->
  mode_writes t <> [] ->
  mode_change_lock_timer g' = LOCK_TIME.
Proof.
  intros He E Hw. destruct (tick_outcome env g) as (_ & _ & M & _).
  rewrite E in M. cbn [trace_of globals_of completed] in M.
  destruct M as [[[W _] _]|(mode_new & _ & _ & L)]; [contradiction|].
  unfold lock_facts in L. rewrite (lock_start_enabled env g He) in L.
  cbn [trace_of globals_of completed] in L. unfold relock in L.
  destruct (mode_change_lock_timer g >? 0).
  { destruct L as (_ & _ & L). destruct (L eq_refl) as (_ & W & _). contradiction. }
  destruct (negb (py_eq (mode_current g) mode_new)).
  - destruct L as (_ & _ & L). destruct (L eq_refl) as (F & _).
    unfold mode_fields in F. inversion F. reflexivity.
  - destruct L as (_ & _ & L). destruct (L eq_refl) as (_ & W & _). contradiction.
Qed.

Lemma locked_run n : forall envs g,
  output_enabled g = true ->
  (forall env, In env (firstn n envs) -> marker_file env = true) ->
  Z.of_nat n <= mode_change_lock_timer g ->
  writes_in (firstn n (main_loop envs g)) = 0%nat.
Proof.
  induction n as [|n IH]; intros envs g He Hm Hl; [reflexivity|].
  destruct envs as [|env rest]; [reflexivity|].
  cbn [main_loop].
  destruct (tick_locked env g He ltac:(lia)) as [W D].
  destruct (update_ess_mode env g) as [b g' t|e g' t] eqn:E;
    cbn [firstn]; rewrite writes_in_cons; cbn [trace_of] in *; rewrite W.
  - cbn [List.length Nat.add]. apply IH.
    + rewrite (tick_enabled env g b g' t E). apply Hm. left. reflexivity.
    + intros env' Hin. apply Hm. right. exact Hin.
    + cbn [completed globals_of] in D. rewrite (D eq_refl). lia.
  - destruct n; reflexivity.
Qed.

Lemma lock_window n : forall envs g,
  output_enabled g = true ->
  (forall env, In env (firstn n envs) -> marker_file env = true) ->
  Z.of_nat n <= LOCK_TIME ->
  (writes_in (firstn n (main_loop envs g)) <= 1)%nat.
Proof.
  induction n as [|n IH]; intros envs g He Hm Hn; [cbn; lia|].
  destruct envs as [|env rest]; [cbn; lia|].
  cbn [main_loop].
  pose proof (tick_writes_le_1 env g) as W1.
  destruct (update_ess_mode env g) as [b g' t|e g' t] eqn:E;
    cbn [firstn]; rewrite writes_in_cons; cbn [trace_of] in *.
  2:{ destruct n; cbn; lia. }
  assert (He' : output_enabled g' = true).
  { rewrite (tick_enabled env g b g' t E). apply Hm. left. reflexivity. }
  assert (Hm' : forall env', In env' (firstn n rest) -> marker_file env' = true).
  { intros env' Hin. apply Hm. right. exact Hin. }
  destruct (mode_writes t) as [|w ws] eqn:Hw.
  - cbn [List.length Nat.add]. apply IH; [assumption|assumption|lia].
  - rewrite (locked_run n rest g' He' Hm'); [lia|].
    rewrite (tick_after_write env g b g' t He E); [lia|].
    rewrite Hw. discriminate.
Qed.

Lemma main_loop_skipn k : forall envs g,
  skipn k (main_loop envs g)
  = match globals_after k envs g with
    | Some g' => main_loop (skipn k envs) g'
    | None => []
    end.
Proof.
  induction k as [|k IH]; intros envs g; [reflexivity|].
  destruct envs as [|env rest]; [reflexivity|].
  cbn [main_loop globals_after].
  destruct (update_ess_mode env g) as [b g' t|e g' t]; cbn [skipn].
  - apply IH.
  - destruct k; reflexivity.
Qed.

Lemma globals_after_enabled k : forall envs g g',
  output_enabled g = true ->
  (forall env, In env envs -> marker_file env = true) ->
  globals_after k envs g = Some g' ->
  output_enabled g' = true.
Proof.
  induction k as [|k IH]; intros envs g g' He Hm H.
  - inversion H. subst. exact He.
  - destruct envs as [|env rest]; [discriminate H|].
    cbn [globals_after] in H.
    destruct (update_ess_mode env g) as [b g1 t|e g1 t] eqn:E; [|discriminate H].
    apply (IH rest g1 g'); [|intros; apply Hm; right; assumption|exact H].
    rewrite (tick_enabled env g b g1 t E). apply Hm. left. reflexivity.
Qed.

Lemma in_firstn {A : Type} n : forall (l : list A) x,
  In x (firstn n l) -> In x l.
Proof.
  induction n as [|n IH]; intros [|a l] x H; cbn in *; try contradiction.
  destruct H as [H|H]; [left; exact H|right; apply IH; exact H].
Qed.

Lemma in_skipn {A : Type} n : forall (l : list A) x,
  In x (skipn n l) -> In x l.
Proof.
  induction n as [|n IH]; intros [|a l] x H; cbn in *; try contradiction;
    try assumption.
  right. apply IH. exact H.
Qed.

(** C1.  In every run from the start of the process in which the marker
    file is present on every tick, any [LOCK_TIME] consecutive ticks
    contain at most one [SetValue] on the Mode bus item. *)
Theorem C1_one_write_per_lock_window (mode_at_startup : value) (envs : list Env) (k : nat) :
  (forall env, In env envs -> marker_file env = true) ->
  (writes_in (firstn (Z.to_nat LOCK_TIME)
                (skipn k (main_loop envs (initial_globals mode_at_startup))))
   <= 1)%nat.
Proof.
  intros Hm. rewrite main_loop_skipn.
  destruct (globals_after k envs (initial_globals mode_at_startup)) as [g'|] eqn:G.
  - apply lock_window.
    + eapply globals_after_enabled; [|exact Hm|exact G]. reflexivity.
    + intros env Hin. apply Hm.
      apply (in_skipn k). exact (in_firstn _ _ _ Hin).
    + rewrite Z2Nat.id; [lia|]. unfold LOCK_TIME. lia.
  - destruct (Z.to_nat LOCK_TIME); cbn; lia.
Qed.

(** C10.  No [SetValue] on the Mode bus item happens during the first
    [LOCK_TIME] ticks after the start of the process when the marker file is
    present on every one of those ticks. *)
Theorem C10_no_write_after_startup (mode_at_startup : value) (envs : list Env) :
  (forall env, In env (firstn (Z.to_nat LOCK_TIME) envs) -> marker_file env = true) ->
  writes_in (firstn (Z.to_nat LOCK_TIME)
               (main_loop envs (initial_globals mode_at_startup)))
  = 0%nat.
Proof.
  intros Hm. apply locked_run.
  - reflexivity.
  - exact Hm.
  - rewrite Z2Nat.id; [|unfold LOCK_TIME; lia]. cbn. lia.
Qed.

(** ** Concrete ticks *)

(** A tick on which every read and every write succeeds: feed-in and
    charge permitted, no ESS power, the PV inverter producing. *)
Definition healthy (grid_power : Z) (marker : bool) (mode : value) : Env :=
  {| DisableFeedIn := Some (Num 0);
     DisableCharge := Some (Num 0);
     EssPower := Some (Int32 0);
     GridPower := Some (Num grid_power);
     PvStatus := Some (Num 11);
     PvPower := Some (Num 0);
     Mode := Some mode;
     BatterySoc := Some (Num 50);
     marker_file := marker;
     sink_ok := fun _ => true;
     mode_write_ok := true |}.

(** Globals of a system at rest in mode Off with the lock open. *)
Definition at_rest : Globals :=
  {| grid_import_debounce := THRESHOLD_DEBOUNCE;
     grid_import_timer := 0;
     grid_export_debounce := THRESHOLD_DEBOUNCE;
     grid_export_timer := 0;
     feed_in_unstable := false;
     feed_in_stable := false;
     feed_in_stable_timer := 0;
     charge_unstable := false;
     charge_stable := false;
     charge_stable_timer := 0;
     mode_current := Num VE_MODE_OFF;
     mode_change_lock_timer := 0;
     output_enabled := true |}.

(** ** Settled states *)

Lemma fixed_point_quiet env g b t :
  update_ess_mode env g = Val b g t -> mode_writes t = [].
Proof.
  intros E. destruct (tick_outcome env g) as (_ & _ & M & _).
  rewrite E in M. cbn [trace_of globals_of completed] in M.
  destruct M as [[[W _] _]|(mode_new & _ & _ & L)]; [exact W|].
  pose proof (tick_enabled env g b g t E) as He.
  unfold lock_facts, lock_start, resync in L. rewrite <- He in L.
  cbn [trace_of globals_of completed] in L.
  destruct (output_enabled g); cbn [andb negb] in L.
  - unfold relock in L.
    destruct (mode_change_lock_timer g >? 0) eqn:G.
    { destruct L as (_ & _ & L). destruct (L eq_refl) as (F & _).
      unfold mode_fields in F. inversion F. lia. }
    destruct (negb (py_eq (mode_current g) mode_new)).
    + destruct L as (_ & _ & L). destruct (L eq_refl) as (F & _).
      unfold mode_fields in F. inversion F as [[H1 H2]].
      rewrite Z.gtb_ltb, Z.ltb_ge in G. unfold LOCK_TIME in H2. lia.
    + destruct L as (_ & _ & L). destruct (L eq_refl) as (_ & W & _). exact W.
  - unfold relock in L.
    destruct (mode_change_lock_timer g >? 0).
    + destruct L as (_ & _ & L). destruct (L eq_refl) as (_ & W & _). exact W.
    + destruct (negb (py_eq (mode_current g) mode_new)).
      * destruct L as (_ & _ & L). destruct (L eq_refl) as (_ & W & _). exact W.
      * destruct L as (_ & _ & L). destruct (L eq_refl) as (_ & W & _). exact W.
Qed.

(** C9.  From globals that a tick under snapshot [env] leaves unchanged,
    any number of further ticks under the same snapshot completes, stays in
    those globals and makes no [SetValue] on the Mode bus item. *)
Theorem C9_settled_state_writes_nothing (env : Env) (g : Globals) (b : bool)
    (t : list event) (n : nat) :
  update_ess_mode env g = Val b g t ->
  writes_in (main_loop (repeat env n) g) = 0%nat
  /\ List.length (main_loop (repeat env n) g) = n
  /\ globals_after n (repeat env n) g = Some g.
Proof.
  intros E. pose proof (fixed_point_quiet env g b t E) as W.
  induction n as [|n (IH1 & IH2 & IH3)]; [repeat split|].
  cbn [repeat main_loop globals_after]. rewrite E.
  rewrite writes_in_cons. cbn [trace_of List.length]. rewrite W, IH1, IH2.
  repeat split. exact IH3.
Qed.

Lemma C9_settled_state_witness :
  writes_in (main_loop (repeat (healthy 0 true (Num VE_MODE_OFF)) 3) at_rest) = 0%nat
  /\ List.length (main_loop (repeat (healthy 0 true (Num VE_MODE_OFF)) 3) at_rest) = 3%nat
  /\ globals_after 3 (repeat (healthy 0 true (Num VE_MODE_OFF)) 3) at_rest = Some at_rest.
Proof.
  apply (C9_settled_state_writes_nothing (healthy 0 true (Num VE_MODE_OFF)) at_rest true
           (trace_of (update_ess_mode (healthy 0 true (Num VE_MODE_OFF)) at_rest)) 3).
  vm_compute. reflexivity.
Defined.

Lemma C1_one_write_per_lock_window_witness :
  (forall env, In env (repeat (healthy 150 true (Num VE_MODE_OFF)) 700) ->
     marker_file env = true)
  /\ (writes_in (firstn (Z.to_nat LOCK_TIME)
                   (skipn 100 (main_loop (repeat (healthy 150 true (Num VE_MODE_OFF)) 700)
                                 (initial_globals (Num VE_MODE_OFF)))))
      <= 1)%nat.
Proof.
  assert (H : forall env, In env (repeat (healthy 150 true (Num VE_MODE_OFF)) 700) ->
                marker_file env = true).
  { intros env Hin. apply repeat_spec in Hin. subst env. reflexivity. }
  split; [exact H|].
  exact (C1_one_write_per_lock_window (Num VE_MODE_OFF)
           (repeat (healthy 150 true (Num VE_MODE_OFF)) 700) 100 H).
Defined.

Lemma C10_no_write_after_startup_witness :
  writes_in (firstn (Z.to_nat LOCK_TIME)
               (main_loop (repeat (healthy 150 true (Num VE_MODE_OFF)) 700)
                  (initial_globals (Num VE_MODE_OFF))))
  = 0%nat.
Proof.
  apply (C10_no_write_after_startup (Num VE_MODE_OFF)
           (repeat (healthy 150 true (Num VE_MODE_OFF)) 700)).
  intros env Hin. apply in_firstn in Hin. apply repeat_spec in Hin.
  subst env. reflexivity.
Defined.

(** ** Resynchronisation (lines 321-324 followed by lines 331-351) *)

(** C3 as stated fails.  Start with the controller in mode On, run one tick
    with the marker file absent and one with it present, sensors unchanged:
    on the second tick the switch goes from off to on, the mode read back is
    On, the desired mode is Off, and that same tick logs the change, writes
    Off to the controller and leaves the lock at [LOCK_TIME]. *)
Lemma C3_resync_tick_writes :
  exists g g' t,
    globals_after 1 [healthy 0 false (Num VE_MODE_ON)]
      (initial_globals (Num VE_MODE_ON)) = Some g
    /\ resync (healthy 0 true (Num VE_MODE_ON)) g = true
    /\ update_ess_mode (healthy 0 true (Num VE_MODE_ON)) g = Val true g' t
    /\ mode_writes t = [VE_MODE_OFF]
    /\ existsb is_change_log t = true
    /\ mode_current g' <> Num VE_MODE_ON
    /\ mode_change_lock_timer g' <> 0.
Proof.
  eexists. eexists. eexists.
  split; [vm_compute; reflexivity|].
  split; [vm_compute; reflexivity|].
  split; [vm_compute; reflexivity|].
  split; [vm_compute; reflexivity|].
  split; [vm_compute; reflexivity|].
  split; vm_compute; discriminate.
Qed.

(** C3, amended.  On a tick where the switch goes from off to on and the
    controller's mode [m] is read back, with [target] the desired mode the
    tick published: if [m] equals [target] the tick writes nothing and logs
    no mode change, and when it completes [mode_current] is [m] and the
    lock is 0; if [m] differs from [target] and the tick completes, that
    same tick logs the change, makes the one write of [target] and leaves
    [mode_current] at [target] and the lock at [LOCK_TIME]. *)
Theorem C3_resync_then_apply (env : Env) (g : Globals) (m : value) (target : Z) :
  resync env g = true ->
  Mode env = Some m ->
  publishes (trace_of (update_ess_mode env g)) "/Mode" (PVal (Num target)) ->
  (py_eq m target = true ->
     mode_writes (trace_of (update_ess_mode env g)) = []
     /\ existsb is_change_log (trace_of (update_ess_mode env g)) = false
     /\ (completed (update_ess_mode env g) = true ->
         mode_current (globals_of (update_ess_mode env g)) = m
         /\ mode_change_lock_timer (globals_of (update_ess_mode env g)) = 0))
  /\ (py_eq m target = false ->
      completed (update_ess_mode env g) = true ->
      mode_writes (trace_of (update_ess_mode env g)) = [target]
      /\ existsb is_change_log (trace_of (update_ess_mode env g)) = true
      /\ mode_current (globals_of (update_ess_mode env g)) = Num target
      /\ mode_change_lock_timer (globals_of (update_ess_mode env g)) = LOCK_TIME).
Proof.
  intros Hr Hm Hp. destruct (tick_outcome env g) as (_ & _ & M & _).
  destruct M as [[[W Lg] C]|(mode_new & U & _ & L)].
  - split.
    + intros _. split; [exact W|]. split; [exact Lg|].
      intros C'. rewrite C in C'. discriminate C'.
    + intros _ C'. rewrite C in C'. discriminate C'.
  - pose proof (U _ Hp) as Ht. inversion Ht. subst mode_new. clear Ht.
    assert (Hk : marker_file env = true).
    { unfold resync in Hr. apply andb_true_iff in Hr. apply Hr. }
    unfold lock_facts, lock_start in L. rewrite Hr, Hm in L.
    unfold relock in L. cbn [Z.gtb Z.compare] in L. rewrite Hk in L.
    split.
    + intros He. rewrite He in L. cbn [negb] in L.
      destruct L as (Wr & Lg & Cm).
      split; [destruct Wr; assumption|]. split.
      * destruct (existsb is_change_log _); [|reflexivity].
        destruct (Lg eq_refl) as [_ Hd]. discriminate Hd.
      * intros C. destruct (Cm C) as (F & _). unfold mode_fields in F.
        inversion F. split; reflexivity.
    + intros He C. rewrite He in L. cbn [negb] in L.
      destruct L as (_ & _ & Cm). destruct (Cm C) as (F & Wr & Lg).
      split; [exact Wr|]. split; [exact Lg|].
      unfold mode_fields in F. injection F as F1 F2 F3. split; assumption.
Qed.

Lemma C3_resync_then_apply_witness :
  mode_writes (trace_of (update_ess_mode (healthy 0 true (Num VE_MODE_ON))
                           (set_output_enabled false at_rest))) = [VE_MODE_OFF]
  /\ mode_change_lock_timer
       (globals_of (update_ess_mode (healthy 0 true (Num VE_MODE_ON))
                      (set_output_enabled false at_rest))) = LOCK_TIME.
Proof.
  assert (Hr : resync (healthy 0 true (Num VE_MODE_ON))
                 (set_output_enabled false at_rest) = true) by reflexivity.
  assert (Hm : Mode (healthy 0 true (Num VE_MODE_ON)) = Some (Num VE_MODE_ON))
    by reflexivity.
  assert (Hp : publishes
                 (trace_of (update_ess_mode (healthy 0 true (Num VE_MODE_ON))
                              (set_output_enabled false at_rest)))
                 "/Mode" (PVal (Num VE_MODE_OFF))).
  { vm_compute. tauto. }
  destruct (C3_resync_then_apply (healthy 0 true (Num VE_MODE_ON))
              (set_output_enabled false at_rest) (Num VE_MODE_ON) VE_MODE_OFF
              Hr Hm Hp) as [_ H].
  destruct (H eq_refl eq_refl) as (W & _ & _ & K).
  split; assumption.
Defined.

(** ** The channels after a completed tick *)

Lemma tick_channels env g b g' t :
  update_ess_mode env g = Val b g' t ->
  exists rl,
    residual_load_of env = Some rl
    /\ publishes t "/ResidualLoad" (PVal (Num rl))
    /\ feed_in_fields g'
       = feed_in_fields (feed_in_step (fst (allow_flags env)) rl g)
    /\ charge_fields g'
       = charge_fields (charge_step (snd (allow_flags env)) rl
                          (fst (pv_reading env)) g).
Proof.
  intros E. destruct (tick_outcome env g) as (_ & _ & _ & _ & K & C).
  rewrite E in K, C. cbn [completed trace_of] in C.
  destruct (C eq_refl) as (rl & Hrl & Hp). exists rl.
  destruct (K rl Hrl) as [_ Kc]. unfold completion_facts in Kc.
  cbn [completed globals_of] in Kc. destruct (Kc eq_refl) as (F1 & F2 & _).
  repeat split; assumption.
Qed.

(** The counters of both channels lie in their ranges. *)
Definition in_bounds (g : Globals) : Prop :=
  (0 <= grid_import_debounce g <= THRESHOLD_DEBOUNCE)
  /\ (0 <= grid_import_timer g <= FEED_IN_TIMEOUT)
  /\ (0 <= feed_in_stable_timer g <= STABLE_TIMER)
  /\ (0 <= grid_export_debounce g <= THRESHOLD_DEBOUNCE)
  /\ (0 <= grid_export_timer g <= CHARGE_TIMEOUT)
  /\ (0 <= charge_stable_timer g <= STABLE_TIMER).

Lemma debounce_bounds exceeded d :
  0 <= d <= THRESHOLD_DEBOUNCE -> 0 <= debounce exceeded d <= THRESHOLD_DEBOUNCE.
Proof.
  unfold debounce, THRESHOLD_DEBOUNCE. intros H.
  destruct (negb exceeded); [lia|]. destruct (d >? 0) eqn:G; lia.
Qed.

Lemma countdown_bounds ceiling d t :
  0 <= ceiling -> 0 <= t <= ceiling -> 0 <= countdown ceiling d t <= ceiling.
Proof.
  unfold countdown. intros Hc H.
  destruct (d =? 0); [lia|]. destruct (t >? 0) eqn:G; [|lia].
  apply Z.gtb_lt in G. lia.
Qed.

Lemma stabilize_bounds new u t s :
  0 <= t <= STABLE_TIMER ->
  0 <= snd (fst (stabilize new (u, t, s))) <= STABLE_TIMER.
Proof.
  unfold stabilize, STABLE_TIMER. intros H.
  destruct (negb (Bool.eqb new u)); [cbn; lia|].
  destruct (t >? 0) eqn:G; cbn; [|lia]. apply Z.gtb_lt in G. lia.
Qed.

Lemma feed_in_step_fields fa rl g :
  let d := debounce (rl >? FEED_IN_DISABLE_THRESHOLD) (grid_import_debounce g) in
  let t := countdown FEED_IN_TIMEOUT d (grid_import_timer g) in
  let s := stabilize (feed_in_candidate fa (feed_in_stable g) t rl)
             (feed_in_unstable g, feed_in_stable_timer g, feed_in_stable g) in
  feed_in_fields (feed_in_step fa rl g)
  = (d, t, fst (fst s), snd (fst s), snd s).
Proof.
  cbv zeta. unfold feed_in_step. destruct (stabilize _ _) as [[u tm] s]. reflexivity.
Qed.

Lemma charge_step_fields ca rl pvm g :
  let d := debounce (rl <? CHARGE_DISABLE_THRESHOLD) (grid_export_debounce g) in
  let t := countdown CHARGE_TIMEOUT d (grid_export_timer g) in
  let s := stabilize (charge_candidate ca (charge_stable g) t rl pvm)
             (charge_unstable g, charge_stable_timer g, charge_stable g) in
  charge_fields (charge_step ca rl pvm g)
  = (d, t, fst (fst s), snd (fst s), snd s).
Proof.
  cbv zeta. unfold charge_step. destruct (stabilize _ _) as [[u tm] s]. reflexivity.
Qed.

Lemma tick_in_bounds env g b g' t :
  in_bounds g -> update_ess_mode env g = Val b g' t -> in_bounds g'.
Proof.
  intros (B1 & B2 & B3 & B4 & B5 & B6) E.
  destruct (tick_channels env g b g' t E) as (rl & _ & _ & F & C).
  rewrite feed_in_step_fields in F. rewrite charge_step_fields in C.
  unfold feed_in_fields in F. unfold charge_fields in C.
  injection F as F1 F2 F3 F4 F5. injection C as C1 C2 C3 C4 C5.
  unfold in_bounds. rewrite F1, F2, F4, C1, C2, C4.
  repeat split;
    first [ apply debounce_bounds; assumption
          | apply countdown_bounds; [unfold FEED_IN_TIMEOUT, CHARGE_TIMEOUT; lia|assumption]
          | apply stabilize_bounds; assumption ].
Qed.

(** C7.  The counter ranges hold when the process starts, every completed
    tick preserves them, and so they hold after any number of ticks from
    the start. *)
Theorem C7_counters_in_bounds (mode_at_startup : value) :
  in_bounds (initial_globals mode_at_startup)
  /\ (forall env g b g' t,
        in_bounds g -> update_ess_mode env g = Val b g' t -> in_bounds g')
  /\ (forall n envs g,
        globals_after n envs (initial_globals mode_at_startup) = Some g ->
        in_bounds g).
Proof.
  assert (I : in_bounds (initial_globals mode_at_startup)).
  { unfold in_bounds, initial_globals, THRESHOLD_DEBOUNCE, FEED_IN_TIMEOUT,
      CHARGE_TIMEOUT, STABLE_TIMER. cbn. lia. }
  split; [exact I|]. split; [exact tick_in_bounds|].
  intros n. generalize (initial_globals mode_at_startup) I.
  induction n as [|n IH]; intros g0 I0 envs g H.
  - inversion H. subst. exact I0.
  - destruct envs as [|env rest]; [discriminate H|]. cbn [globals_after] in H.
    destruct (update_ess_mode env g0) as [b g1 t|e g1 t] eqn:E; [|discriminate H].
    exact (IH g1 (tick_in_bounds env g0 b g1 t I0 E) rest g H).
Qed.

Lemma C7_counters_in_bounds_witness :
  match globals_after 20 (repeat (healthy 150 true (Num VE_MODE_OFF)) 20)
          (initial_globals (Num VE_MODE_OFF)) with
  | Some g => in_bounds g
  | None => False
  end.
Proof.
  destruct (globals_after 20 (repeat (healthy 150 true (Num VE_MODE_OFF)) 20)
              (initial_globals (Num VE_MODE_OFF))) as [g|] eqn:E.
  - exact (proj2 (proj2 (C7_counters_in_bounds (Num VE_MODE_OFF))) _ _ _ E).
  - vm_compute in E. discriminate E.
Defined.

(** ** The timeout counters (lines 204-207 and 262-265) *)

(** C4 as stated fails.  Ten ticks at a residual load of 150 W bring the
    feed-in debounce counter to 0 and the timeout counter to its ceiling;
    on the eleventh tick the debounce counter was 0 already, yet the
    timeout counter is set to the ceiling again: it is positive and does
    not decrease. *)
Lemma C4_timeout_held_at_ceiling :
  exists g g',
    globals_after 10 (repeat (healthy 150 true (Num VE_MODE_OFF)) 10)
      (initial_globals (Num VE_MODE_OFF)) = Some g
    /\ globals_after 1 [healthy 150 true (Num VE_MODE_OFF)] g = Some g'
    /\ grid_import_debounce g = 0
    /\ grid_import_debounce g' = 0
    /\ grid_import_timer g = FEED_IN_TIMEOUT
    /\ grid_import_timer g' = FEED_IN_TIMEOUT
    /\ ~ grid_import_timer g' < grid_import_timer g.
Proof.
  eexists. eexists.
  split; [vm_compute; reflexivity|].
  split; [vm_compute; reflexivity|].
  repeat split; vm_compute; congruence.
Qed.

(** C4, amended.  After a completed tick, each channel's timeout counter is
    at its ceiling whenever the debounce counter, as that tick leaves it, is
    0 (on the tick it reaches 0 and on every tick it stays there); on every
    other tick it has decreased by one if it was positive and is unchanged
    otherwise; it never becomes negative. *)
Theorem C4_timeout_counter (env : Env) (g : Globals) (b : bool) (g' : Globals)
    (t : list event) :
  update_ess_mode env g = Val b g' t ->
  ((grid_import_debounce g' = 0 -> grid_import_timer g' = FEED_IN_TIMEOUT)
   /\ (grid_import_debounce g' <> 0 -> 0 < grid_import_timer g ->
       grid_import_timer g' = grid_import_timer g - 1)
   /\ (grid_import_debounce g' <> 0 -> grid_import_timer g <= 0 ->
       grid_import_timer g' = grid_import_timer g)
   /\ (0 <= grid_import_timer g -> 0 <= grid_import_timer g'))
  /\ ((grid_export_debounce g' = 0 -> grid_export_timer g' = CHARGE_TIMEOUT)
      /\ (grid_export_debounce g' <> 0 -> 0 < grid_export_timer g ->
          grid_export_timer g' = grid_export_timer g - 1)
      /\ (grid_export_debounce g' <> 0 -> grid_export_timer g <= 0 ->
          grid_export_timer g' = grid_export_timer g)
      /\ (0 <= grid_export_timer g -> 0 <= grid_export_timer g')).
Proof.
  intros E.
  destruct (tick_channels env g b g' t E) as (rl & _ & _ & F & C).
  rewrite feed_in_step_fields in F. rewrite charge_step_fields in C.
  unfold feed_in_fields in F. unfold charge_fields in C.
  injection F as F1 F2 _ _ _. injection C as C1 C2 _ _ _.
  rewrite <- F1 in F2. rewrite <- C1 in C2. rewrite F2, C2.
  unfold countdown, FEED_IN_TIMEOUT, CHARGE_TIMEOUT.
  split.
  - destruct (grid_import_debounce g' =? 0) eqn:D;
      [apply Z.eqb_eq in D|apply Z.eqb_neq in D];
      destruct (grid_import_timer g >? 0) eqn:G;
      [apply Z.gtb_lt in G|rewrite Z.gtb_ltb, Z.ltb_ge in G
      |apply Z.gtb_lt in G|rewrite Z.gtb_ltb, Z.ltb_ge in G];
      repeat split; intros; lia.
  - destruct (grid_export_debounce g' =? 0) eqn:D;
      [apply Z.eqb_eq in D|apply Z.eqb_neq in D];
      destruct (grid_export_timer g >? 0) eqn:G;
      [apply Z.gtb_lt in G|rewrite Z.gtb_ltb, Z.ltb_ge in G
      |apply Z.gtb_lt in G|rewrite Z.gtb_ltb, Z.ltb_ge in G];
      repeat split; intros; lia.
Qed.

Lemma C4_timeout_counter_witness :
  grid_import_timer
    (globals_of (update_ess_mode (healthy 0 true (Num VE_MODE_OFF))
                   (set_grid_import_timer 5 at_rest))) = 4.
Proof.
  destruct (C4_timeout_counter (healthy 0 true (Num VE_MODE_OFF))
              (set_grid_import_timer 5 at_rest) true
              (globals_of (update_ess_mode (healthy 0 true (Num VE_MODE_OFF))
                             (set_grid_import_timer 5 at_rest)))
              (trace_of (update_ess_mode (healthy 0 true (Num VE_MODE_OFF))
                           (set_grid_import_timer 5 at_rest))))
    as [(_ & H & _) _].
  - vm_compute. reflexivity.
  - apply H; vm_compute; congruence.
Defined.

(** ** The requests (lines 221 and 280) *)

Lemma pv_status_reading env v :
  PvStatus env = Some v ->
  fst (pv_reading env) = v \/ fst (pv_reading env) = Num 0.
Proof.
  intros H. unfold pv_reading. rewrite H.
  destruct (PvPower env); [|right; reflexivity].
  destruct (sink_ok env "/PvPower" && sink_ok env "/PvInverterStatus");
    [left|right]; reflexivity.
Qed.

(** C6.  On every tick, with [rl] the residual load the tick published,
    the feed-in request it publishes is
    [feed_in_allowed and ((feed_in_stable and timer > 0) or
    (not feed_in_stable and rl > FEED_IN_THRESHOLD))], and the charge
    request is the mirrored expression and-ed with the PV status being 11
    or 12; with a PV status of 3 the charge request is false.  The allow
    flags and the PV status are the tick's values after the fallbacks,
    [feed_in_stable] and [charge_stable] the globals when the tick starts
    and the timers the timeout counters as the tick leaves them.  A
    completed tick publishes both requests. *)
Theorem C6_requests (env : Env) (g : Globals) (rl : Z) :
  let r := update_ess_mode env g in
  let feed_in_allowed := fst (allow_flags env) in
  let charge_allowed := snd (allow_flags env) in
  let pv_status_code := fst (pv_reading env) in
  publishes (trace_of r) "/ResidualLoad" (PVal (Num rl)) ->
  (forall x, publishes (trace_of r) "/FeedInRequest" x ->
     x = PBool (feed_in_allowed
                && ((feed_in_stable g && (grid_import_timer (globals_of r) >? 0))
                    || (negb (feed_in_stable g) && (rl >? FEED_IN_THRESHOLD)))))
  /\ (forall x, publishes (trace_of r) "/ChargeRequest" x ->
        x = PBool (charge_allowed
                   && ((charge_stable g && (grid_export_timer (globals_of r) >? 0))
                       || (negb (charge_stable g) && (rl <? CHARGE_THRESHOLD)))
                   && (py_eq pv_status_code 11 || py_eq pv_status_code 12)))
  /\ (forall v, PvStatus env = Some v -> py_eq v 3 = true ->
      forall x, publishes (trace_of r) "/ChargeRequest" x -> x = PBool false)
  /\ (completed r = true ->
      (exists x, publishes (trace_of r) "/FeedInRequest" x)
      /\ (exists y, publishes (trace_of r) "/ChargeRequest" y)).
Proof.
  cbv zeta. intros Hp.
  destruct (tick_outcome env g) as (_ & _ & _ & U & K & _).
  destruct (U _ Hp) as (rl' & Hrl & Hx). inversion Hx. subst rl'. clear Hx.
  destruct (K rl Hrl) as [[C1 C2] Kc].
  unfold feed_in_candidate in C1. unfold charge_candidate in C2.
  split; [exact C1|]. split; [exact C2|]. split.
  - intros v Hv H3 x Hx. rewrite (C2 x Hx). f_equal.
    assert (Hn : py_eq (fst (pv_reading env)) 11
                 || py_eq (fst (pv_reading env)) 12 = false).
    { destruct (pv_status_reading env v Hv) as [-> | ->]; [|reflexivity].
      destruct v as [n|n|]; cbn [py_eq] in *; try discriminate H3.
      all: apply Z.eqb_eq in H3; subst n; reflexivity. }
    rewrite Hn. apply andb_false_r.
  - intros Hc. destruct (Kc Hc) as (_ & _ & P1 & P2 & _).
    split; eexists; eassumption.
Qed.

Lemma C6_requests_witness :
  exists x,
    publishes (trace_of (update_ess_mode (healthy 150 true (Num VE_MODE_OFF)) at_rest))
      "/FeedInRequest" x
    /\ x = PBool true.
Proof.
  assert (Hp : publishes
                 (trace_of (update_ess_mode (healthy 150 true (Num VE_MODE_OFF)) at_rest))
                 "/ResidualLoad" (PVal (Num 150))).
  { vm_compute. tauto. }
  destruct (C6_requests (healthy 150 true (Num VE_MODE_OFF)) at_rest 150 Hp)
    as (H & _ & _ & Hc).
  destruct (Hc eq_refl) as [[x Hx] _].
  exists x. split; [exact Hx|exact (H x Hx)].
Defined.

(** ** The stabilizers over a run (lines 228-238 and 287-297) *)

(** The two channels share the stabilizer; they differ in the globals it
    works on and in the path the request is published on. *)
Inductive channel : Type :=
  | FeedIn
  | Charge.

Definition request_path (ch : channel) : string :=
  match ch with
  | FeedIn => "/FeedInRequest"
  | Charge => "/ChargeRequest"
  end.

(** (request to be stabilized, settle timer, latest stable state). *)
Definition stabilizer (ch : channel) (g : Globals) : bool * Z * bool :=
  match ch with
  | FeedIn => (feed_in_unstable g, feed_in_stable_timer g, feed_in_stable g)
  | Charge => (charge_unstable g, charge_stable_timer g, charge_stable g)
  end.

Definition unstable_value (ch : channel) (g : Globals) : bool :=
  fst (fst (stabilizer ch g)).

Definition settle_timer (ch : channel) (g : Globals) : Z :=
  snd (fst (stabilizer ch g)).

Definition stable_value (ch : channel) (g : Globals) : bool :=
  snd (stabilizer ch g).

(** Tick [k] of the run published the request [c] of channel [ch]. *)
Definition candidate_at (ch : channel) (rs : list (result bool)) (k : nat)
    (c : bool) : Prop :=
  exists r, nth_error rs k = Some r
            /\ publishes (trace_of r) (request_path ch) (PBool c).

(** A completed tick publishes one request per channel and runs the
    stabilizer on it. *)
Lemma tick_stabilizer ch env g b g' t :
  update_ess_mode env g = Val b g' t ->
  exists c,
    publishes t (request_path ch) (PBool c)
    /\ (forall x, publishes t (request_path ch) x -> x = PBool c)
    /\ stabilizer ch g' = stabilize c (stabilizer ch g).
Proof.
  intros E. destruct (tick_outcome env g) as (_ & _ & _ & _ & K & C).
  rewrite E in K, C. cbn [completed trace_of] in C.
  destruct (C eq_refl) as (rl & Hrl & _).
  destruct (K rl Hrl) as [[Kf Kc] Kd]. unfold completion_facts in Kd.
  cbn [completed globals_of trace_of] in Kf, Kc, Kd.
  destruct (Kd eq_refl) as (F1 & F2 & P1 & P2 & _).
  rewrite feed_in_step_fields in F1. rewrite charge_step_fields in F2.
  unfold feed_in_fields in F1. unfold charge_fields in F2.
  match type of F1 with
  | context [stabilize ?c ?x] => remember (stabilize c x) as s1 eqn:Hs1
  end.
  match type of F2 with
  | context [stabilize ?c ?x] => remember (stabilize c x) as s2 eqn:Hs2
  end.
  injection F1 as _ F1t F1u F1m F1s. injection F2 as _ F2t F2u F2m F2s.
  destruct ch; cbn [request_path stabilizer].
  - eexists. split; [exact P1|]. split; [exact Kf|].
    rewrite F1u, F1m, F1s, F1t, <- Hs1.
    destruct s1 as [[u tm] s]. reflexivity.
  - eexists. split; [exact P2|]. split; [exact Kc|].
    rewrite F2u, F2m, F2s, F2t, <- Hs2.
    destruct s2 as [[u tm] s]. reflexivity.
Qed.

(** The run, tick by tick. *)
Lemma globals_after_snoc n : forall envs g,
  globals_after (S n) envs g
  = match globals_after n envs g, nth_error envs n with
    | Some gn, Some env =>
        match update_ess_mode env gn with
        | Val _ g' _ => Some g'
        | Exc _ _ _ => None
        end
    | _, _ => None
    end.
Proof.
  induction n as [|n IH]; intros envs g.
  - destruct envs as [|env rest]; cbn [globals_after nth_error]; [reflexivity|].
    destruct (update_ess_mode env g); reflexivity.
  - destruct envs as [|env rest].
    + reflexivity.
    + change (globals_after (S (S n)) (env :: rest) g)
        with (match update_ess_mode env g with
              | Val _ g' _ => globals_after (S n) rest g'
              | Exc _ _ _ => None
              end).
      change (globals_after (S n) (env :: rest) g)
        with (match update_ess_mode env g with
              | Val _ g' _ => globals_after n rest g'
              | Exc _ _ _ => None
              end).
      cbn [nth_error].
      destruct (update_ess_mode env g) as [b g' t|e g' t]; [apply IH|reflexivity].
Qed.

Lemma main_loop_nth n : forall envs g gn env,
  globals_after n envs g = Some gn ->
  nth_error envs n = Some env ->
  nth_error (main_loop envs g) n = Some (update_ess_mode env gn).
Proof.
  induction n as [|n IH]; intros envs g gn env G N.
  - destruct envs as [|e rest]; [discriminate N|].
    cbn in G, N. injection G as <-. injection N as <-.
    cbn [main_loop]. destruct (update_ess_mode e g); reflexivity.
  - destruct envs as [|e rest]; [discriminate N|].
    cbn [globals_after nth_error] in G, N. cbn [main_loop].
    destruct (update_ess_mode e g) as [b g' t|x g' t]; [|discriminate G].
    cbn [nth_error]. apply (IH rest g' gn env G N).
Qed.

(** The request of a completed tick is the one the stabilizer keeps. *)
Lemma candidate_kept ch envs g0 n gn env b g' t c :
  globals_after n envs g0 = Some gn ->
  nth_error envs n = Some env ->
  update_ess_mode env gn = Val b g' t ->
  candidate_at ch (main_loop envs g0) n c ->
  stabilizer ch g' = stabilize c (stabilizer ch gn).
Proof.
  intros G N E (r & Hr & Hp).
  rewrite (main_loop_nth n envs g0 gn env G N), E in Hr. injection Hr as <-.
  destruct (tick_stabilizer ch env gn b g' t E) as (c' & _ & U & S).
  cbn [trace_of] in Hp. apply U in Hp. injection Hp as ->. exact S.
Qed.

Lemma stabilize_unstable c s : fst (fst (stabilize c s)) = c.
Proof.
  destruct s as [[u tm] s]. unfold stabilize.
  destruct (Bool.eqb c u) eqn:Q; cbn [negb]; [|reflexivity].
  apply eqb_prop in Q. subst u. destruct (tm >? 0); reflexivity.
Qed.

(** While the stable state differs from the request being stabilized, the
    request has been the same on the last [STABLE_TIMER - settle timer + 1]
    ticks. *)
Definition settling (ch : channel) (rs : list (result bool)) (n : nat)
    (g : Globals) : Prop :=
  stable_value ch g <> unstable_value ch g ->
  (Z.to_nat (STABLE_TIMER - settle_timer ch g) + 1 <= n)%nat
  /\ forall k : nat,
       (n - (Z.to_nat (STABLE_TIMER - settle_timer ch g) + 1) <= k < n)%nat ->
       candidate_at ch rs k (unstable_value ch g).

Lemma settling_run ch mode_at_startup envs n : forall g,
  globals_after n envs (initial_globals mode_at_startup) = Some g ->
  settling ch (main_loop envs (initial_globals mode_at_startup)) n g.
Proof.
  induction n as [|n IH]; intros g G.
  - cbn in G. injection G as <-. intros D. destruct ch; cbn in D; congruence.
  - rewrite globals_after_snoc in G.
    destruct (globals_after n envs (initial_globals mode_at_startup))
      as [gn|] eqn:Gn; [|discriminate G].
    destruct (nth_error envs n) as [env|] eqn:N; [|discriminate G].
    destruct (update_ess_mode env gn) as [b g' t|e g' t] eqn:E; [|discriminate G].
    injection G as <-.
    specialize (IH gn eq_refl).
    destruct (tick_stabilizer ch env gn b g' t E) as (c & P & _ & S).
    assert (Hc : candidate_at ch (main_loop envs (initial_globals mode_at_startup)) n c).
    { exists (update_ess_mode env gn). split.
      - apply main_loop_nth; assumption.
      - rewrite E. exact P. }
    unfold settling, stable_value, unstable_value, settle_timer in *.
    rewrite S. destruct (stabilizer ch gn) as [[u tm] s].
    cbn [fst snd] in IH. unfold stabilize.
    destruct (Bool.eqb c u) eqn:Q; cbn [negb].
    + apply eqb_prop in Q. subst u.
      destruct (tm >? 0) eqn:T; cbn [fst snd]; [|congruence].
      intros D. destruct (IH D) as [L H]. split; [lia|].
      intros k Hk. destruct (Nat.eq_dec k n) as [->|Hn]; [exact Hc|].
      apply H. lia.
    + cbn [fst snd]. intros _. split; [lia|].
      intros k Hk. replace k with n by (unfold STABLE_TIMER in Hk; cbn in Hk; lia).
      exact Hc.
Qed.

(** C2.  Over a run from process start, for either channel:
    - the stable state changes on tick [n] only if the request was the new
      stable state on tick [n] and on the [STABLE_TIMER + 1] ticks before
      it (at least [STABLE_TIMER] ticks with no change in between);
    - a tick whose request differs from that of the tick before leaves the
      stable state as it is and restarts the settle timer at
      [STABLE_TIMER];
    - a request that changes on one tick and is back on the next one
      leaves the stable state as it was before the two ticks. *)
Theorem C2_stable_after_settle (ch : channel) (mode_at_startup : value)
    (envs : list Env) (n : nat) (g : Globals) :
  let rs := main_loop envs (initial_globals mode_at_startup) in
  globals_after n envs (initial_globals mode_at_startup) = Some g ->
  (forall g',
      globals_after (S n) envs (initial_globals mode_at_startup) = Some g' ->
      stable_value ch g' <> stable_value ch g ->
      (Z.to_nat STABLE_TIMER < n)%nat
      /\ forall k : nat,
           (n - Z.to_nat STABLE_TIMER - 1 <= k <= n)%nat ->
           candidate_at ch rs k (stable_value ch g'))
  /\ (forall g' c,
        globals_after (S n) envs (initial_globals mode_at_startup) = Some g' ->
        candidate_at ch rs n c ->
        c <> unstable_value ch g ->
        stable_value ch g' = stable_value ch g
        /\ settle_timer ch g' = STABLE_TIMER)
  /\ (forall m c, n = S m -> candidate_at ch rs m c -> unstable_value ch g = c)
  /\ (forall g'' c,
        globals_after (S (S n)) envs (initial_globals mode_at_startup) = Some g'' ->
        candidate_at ch rs n (negb c) ->
        candidate_at ch rs (S n) c ->
        unstable_value ch g = c ->
        stable_value ch g'' = stable_value ch g).
Proof.
  intros rs G.
  assert (Step : forall m gm gm' c,
             globals_after m envs (initial_globals mode_at_startup) = Some gm ->
             globals_after (S m) envs (initial_globals mode_at_startup) = Some gm' ->
             candidate_at ch rs m c ->
             stabilizer ch gm' = stabilize c (stabilizer ch gm)).
  { intros m gm gm' c Gm Gm' Hc. rewrite globals_after_snoc, Gm in Gm'.
    destruct (nth_error envs m) as [env|] eqn:N; [|discriminate Gm'].
    destruct (update_ess_mode env gm) as [b g1 t|e g1 t] eqn:E; [|discriminate Gm'].
    injection Gm' as <-.
    exact (candidate_kept ch envs _ m gm env b g1 t c Gm N E Hc). }
  assert (Pub : forall m gm gm',
             globals_after m envs (initial_globals mode_at_startup) = Some gm ->
             globals_after (S m) envs (initial_globals mode_at_startup) = Some gm' ->
             exists c, candidate_at ch rs m c).
  { intros m gm gm' Gm Gm'. rewrite globals_after_snoc, Gm in Gm'.
    destruct (nth_error envs m) as [env|] eqn:N; [|discriminate Gm'].
    destruct (update_ess_mode env gm) as [b g1 t|e g1 t] eqn:E; [|discriminate Gm'].
    destruct (tick_stabilizer ch env gm b g1 t E) as (c & P & _).
    exists c, (update_ess_mode env gm). split.
    - apply main_loop_nth; assumption.
    - rewrite E. exact P. }
  split; [|split; [|split]].
  - intros g' G' D.
    destruct (Pub n g g' G G') as [c Hc].
    pose proof (Step n g g' c G G' Hc) as S.
    pose proof (settling_run ch mode_at_startup envs n g G) as I.
    unfold settling, stable_value, unstable_value, settle_timer in *.
    rewrite S in *. destruct (stabilizer ch g) as [[u tm] s].
    cbn [fst snd] in I. unfold stabilize in *.
    destruct (Bool.eqb c u) eqn:Q; cbn [negb] in *.
    + apply eqb_prop in Q. subst u.
      destruct (tm >? 0) eqn:T; cbn [fst snd] in *; [congruence|].
      rewrite Z.gtb_ltb, Z.ltb_ge in T.
      destruct (I (fun H => D (eq_sym H))) as [L H].
      unfold STABLE_TIMER in *. split; [lia|].
      intros k Hk. destruct (Nat.eq_dec k n) as [->|Hn]; [exact Hc|].
      apply H. lia.
    + cbn [fst snd] in D. congruence.
  - intros g' c G' Hc D.
    pose proof (Step n g g' c G G' Hc) as S.
    unfold stable_value, unstable_value, settle_timer in *.
    rewrite S. destruct (stabilizer ch g) as [[u tm] s].
    cbn [fst snd] in D. unfold stabilize.
    destruct (Bool.eqb c u) eqn:Q; cbn [negb].
    + apply eqb_prop in Q. congruence.
    + split; reflexivity.
  - intros m c -> Hc.
    pose proof G as G1. rewrite globals_after_snoc in G1.
    destruct (globals_after m envs (initial_globals mode_at_startup))
      as [gm|] eqn:Gm; [|discriminate G1].
    pose proof (Step m gm g c Gm G Hc) as S.
    unfold unstable_value. rewrite S. apply stabilize_unstable.
  - intros g'' c G'' H1 H2 U.
    pose proof G'' as G1. rewrite globals_after_snoc in G1.
    destruct (globals_after (S n) envs (initial_globals mode_at_startup))
      as [g'|] eqn:G'; [|discriminate G1].
    pose proof (Step n g g' (negb c) G G' H1) as S1.
    pose proof (Step (S n) g' g'' c G' G'' H2) as S2.
    unfold stable_value, unstable_value in *.
    rewrite S2, S1. destruct (stabilizer ch g) as [[u tm] s].
    cbn [fst snd] in U. subst u. unfold stabilize.
    destruct c; reflexivity.
Qed.

Lemma C2_stable_after_settle_witness :
  candidate_at FeedIn
    (main_loop (repeat (healthy 150 true (Num VE_MODE_OFF)) 62)
       (initial_globals (Num VE_MODE_OFF)))
    0 true.
Proof.
  pose proof (C2_stable_after_settle FeedIn (Num VE_MODE_OFF)
                (repeat (healthy 150 true (Num VE_MODE_OFF)) 62) 61) as H.
  cbv zeta in H.
  edestruct H as [H1 _]; [vm_compute; reflexivity|].
  edestruct H1 as [_ H2]; [vm_compute; reflexivity|vm_compute; discriminate|].
  apply (H2 0%nat). vm_compute. lia.
Defined.

(** ** Optional readings (lines 130-149 and 163-171) *)

(** A tick on which none of the optional items can be read. *)
Definition grid_only (grid_power : Z) : Env :=
  {| DisableFeedIn := None;
     DisableCharge := None;
     EssPower := None;
     GridPower := Some (Num grid_power);
     PvStatus := None;
     PvPower := None;
     Mode := Some (Num VE_MODE_OFF);
     BatterySoc := Some (Num 50);
     marker_file := true;
     sink_ok := fun _ => true;
     mode_write_ok := true |}.

(** C8.  A failed read of an allow flag gives (True, True); a failed read
    of the ESS power gives 0, and so does a reading that is not a
    [dbus.Int32]; a failed read of the PV status or the PV power gives
    status 0 and power -1.  None of the three blocks raises or touches a
    global, and when the grid power is read the tick goes on to the
    decision with the values the blocks returned. *)
Theorem C8_optional_reads_fall_back (env : Env) (g : Globals) :
  (DisableFeedIn env = None \/ DisableCharge env = None ->
     read_allow_flags env g = Val (true, true) g [])
  /\ (EssPower env = None -> read_ess_power env g = Val (Num 0) g [])
  /\ (forall v, EssPower env = Some v -> is_Int32 v = false ->
        exists t, read_ess_power env g = Val (Num 0) g t)
  /\ (PvStatus env = None \/ PvPower env = None ->
        read_pv env g = Val (Num 0, Num (-1)) g [])
  /\ (exists fa ca ess pvm pvp ta te tp,
        read_allow_flags env g = Val (fa, ca) g ta
        /\ read_ess_power env g = Val ess g te
        /\ read_pv env g = Val (pvm, pvp) g tp
        /\ forall grid_power,
             grid_reading env = Some grid_power ->
             update_ess_mode env g
             = prepend ta (prepend te (prepend [Debug "/GridPower" (PVal grid_power)]
                 (prepend tp (finish (decide env fa ca ess grid_power pvm pvp g)))))).
Proof.
  split; [|split; [|split; [|split]]].
  - unfold read_allow_flags, try_except, bind, GetValue, raise, ret.
    intros [H|H]; rewrite H; [reflexivity|].
    destruct (DisableFeedIn env); reflexivity.
  - unfold read_ess_power, try_except, bind, GetValue, raise, ret.
    intros H. rewrite H. reflexivity.
  - unfold read_ess_power, try_except, bind, GetValue, raise, ret, debug.
    intros v H I. rewrite H.
    destruct (sink_ok env "/EssPower"); cbn; [rewrite I|]; eexists; reflexivity.
  - unfold read_pv, try_except, bind, GetValue, raise, ret.
    intros [H|H]; rewrite H; [reflexivity|].
    destruct (PvStatus env); reflexivity.
  - destruct (read_allow_flags_outcome env g) as (ta & Ea & _).
    destruct (read_ess_power_outcome env g) as (te & Ee & _).
    destruct (read_pv_outcome env g) as (tp & Ep & _).
    destruct (allow_flags env) as [fa ca]. destruct (pv_reading env) as [pvm pvp].
    exists fa, ca, (ess_reading env), pvm, pvp, ta, te, tp.
    split; [exact Ea|]. split; [exact Ee|]. split; [exact Ep|].
    intros grid_power G. unfold update_ess_mode.
    rewrite bind_unfold, Ea. f_equal.
    rewrite bind_unfold, Ee. f_equal.
    rewrite bind_unfold.
    pose proof (read_grid_power_outcome env g) as Eg. rewrite G in Eg. rewrite Eg.
    f_equal. rewrite bind_unfold, Ep. f_equal.
    apply finish_unfold.
Qed.

Lemma C8_optional_reads_fall_back_witness :
  read_allow_flags (grid_only 150) at_rest = Val (true, true) at_rest []
  /\ read_ess_power (grid_only 150) at_rest = Val (Num 0) at_rest []
  /\ read_pv (grid_only 150) at_rest = Val (Num 0, Num (-1)) at_rest []
  /\ completed (update_ess_mode (grid_only 150) at_rest) = true.
Proof.
  destruct (C8_optional_reads_fall_back (grid_only 150) at_rest)
    as (Ha & He & _ & Hp & _).
  split; [exact (Ha (or_introl eq_refl))|].
  split; [exact (He eq_refl)|].
  split; [exact (Hp (or_introl eq_refl))|].
  vm_compute. reflexivity.
Defined.

(** ** Failed telemetry writes *)





























(** * Further properties of the script *)

(** ** Mode texts (lines 99-113) *)

(** [get_ve_mode_text] answers 'UNKNOWN' exactly for what is not one of
    the four mode numbers, and otherwise its text determines the number. *)
Theorem get_ve_mode_text_distinguishes (v w : value) :
  (get_ve_mode_text v = "UNKNOWN" <->
   forall n, num_of v = Some n -> n < VE_MODE_CHARGER_ONLY \/ VE_MODE_OFF < n)
  /\ (get_ve_mode_text v = get_ve_mode_text w ->
      get_ve_mode_text v <> "UNKNOWN" ->
      exists n, num_of v = Some n /\ num_of w = Some n).
Proof.
  unfold get_ve_mode_text, py_eq, VE_MODE_CHARGER_ONLY, VE_MODE_INVERTER_ONLY,
    VE_MODE_ON, VE_MODE_OFF.
  split.
  - destruct v as [n|n|]; cbn [num_of].
    3:{ split; [intros _ n H; discriminate H|reflexivity]. }
    all: destruct (n =? 1) eqn:E1; [apply Z.eqb_eq in E1|apply Z.eqb_neq in E1].
    all: try (split; [intros H; discriminate H|intros H; specialize (H n eq_refl); lia]).
    all: destruct (n =? 2) eqn:E2; [apply Z.eqb_eq in E2|apply Z.eqb_neq in E2].
    all: try (split; [intros H; discriminate H|intros H; specialize (H n eq_refl); lia]).
    all: destruct (n =? 3) eqn:E3; [apply Z.eqb_eq in E3|apply Z.eqb_neq in E3].
    all: try (split; [intros H; discriminate H|intros H; specialize (H n eq_refl); lia]).
    all: destruct (n =? 4) eqn:E4; [apply Z.eqb_eq in E4|apply Z.eqb_neq in E4].
    all: try (split; [intros H; discriminate H|intros H; specialize (H n eq_refl); lia]).
    all: split; [intros _ k K; injection K as <-; lia|reflexivity].
  - assert (T : forall n : Z,
               (if n =? 1 then "Charger only"
                else if n =? 2 then "Inverter only"
                else if n =? 3 then "On"
                else if n =? 4 then "Off" else "UNKNOWN") <> "UNKNOWN" ->
               forall k : Z,
               (if n =? 1 then "Charger only"
                else if n =? 2 then "Inverter only"
                else if n =? 3 then "On"
                else if n =? 4 then "Off" else "UNKNOWN")
               = (if k =? 1 then "Charger only"
                  else if k =? 2 then "Inverter only"
                  else if k =? 3 then "On"
                  else if k =? 4 then "Off" else "UNKNOWN") ->
               n = k).
    { intros n Hn k.
      destruct (n =? 1) eqn:E1; [apply Z.eqb_eq in E1|];
        [|destruct (n =? 2) eqn:E2; [apply Z.eqb_eq in E2|];
          [|destruct (n =? 3) eqn:E3; [apply Z.eqb_eq in E3|];
            [|destruct (n =? 4) eqn:E4; [apply Z.eqb_eq in E4|congruence]]]].
      all: destruct (k =? 1) eqn:K1; [apply Z.eqb_eq in K1|];
        [|destruct (k =? 2) eqn:K2; [apply Z.eqb_eq in K2|];
          [|destruct (k =? 3) eqn:K3; [apply Z.eqb_eq in K3|];
            [|destruct (k =? 4) eqn:K4; [apply Z.eqb_eq in K4|]]]].
      all: intros H; try discriminate H; lia. }
    destruct v as [n|n|], w as [k|k|]; cbn [num_of]; intros H U;
      try congruence.
    all: try (exists n; rewrite (T n U k H); split; reflexivity).
    all: exfalso; apply U; try reflexivity.
    all: revert H;
      destruct (n =? 1); [intros H; discriminate H|];
      destruct (n =? 2); [intros H; discriminate H|];
      destruct (n =? 3); [intros H; discriminate H|];
      destruct (n =? 4); [intros H; discriminate H|reflexivity].
Qed.

(** ** How a tick ends (lines 151-161 and 355-362) *)

Lemma trace_of_finish (r : result unit) :
  mode_writes (trace_of (finish r)) = mode_writes (trace_of r).
Proof.
  destruct r as [a g t|e g t]; cbn [finish trace_of]; [reflexivity|].
  rewrite mode_writes_app. cbn. apply app_nil_r.
Qed.

Lemma prepend_exc {A : Type} t (r : result A) e g' t' :
  prepend t r = Exc e g' t' -> exists t0, r = Exc e g' t0 /\ t' = t ++ t0.
Proof.
  destruct r as [a0 g0 t0|e0 g0 t0]; cbn; intros H; [discriminate H|].
  injection H as -> -> <-. exists t0. split; reflexivity.
Qed.

(** The callback never returns [False] and lets no exception but
    [SystemExit] out; the exit comes right after a sleep of 10 or 30
    seconds. *)
Theorem update_ess_mode_returns_true_or_exits (env : Env) (g : Globals) :
  match update_ess_mode env g with
  | Val b _ _ => b = true
  | Exc e _ t =>
      e = SystemExit
      /\ exists t0 s, t = t0 ++ [Sleep s] /\ (s = 10 \/ s = 30)
  end.
Proof.
  destruct (update_ess_mode env g) as [b g' t|e g' t] eqn:E.
  - destruct (tick_outcome env g) as (_ & B & _). exact (B b g' t E).
  - split.
    { destruct (tick_outcome env g) as (R & _). rewrite E in R. exact R. }
    destruct (update_ess_mode_unfold env g) as (ta & te & tp & _ & _ & _ & U).
    rewrite E in U. symmetry in U.
    apply prepend_exc in U. destruct U as (t1 & U & ->).
    apply prepend_exc in U. destruct U as (t2 & U & ->).
    destruct (grid_reading env) as [gv|].
    + apply prepend_exc in U. destruct U as (t3 & U & ->).
      apply prepend_exc in U. destruct U as (t4 & U & ->).
      unfold finish in U.
      destruct (decide _ _ _ _ _ _ _ g) as [[] g1 t5|e1 g1 t5]; [discriminate U|].
      injection U as _ _ <-.
      exists (ta ++ te ++ [Debug "/GridPower" (PVal gv)] ++ tp ++ t5
              ++ [LogError MsgException; LogError MsgTraceback]), 10.
      split; [|left; reflexivity].
      rewrite <- !app_assoc. reflexivity.
    + injection U as _ _ <-.
      exists (ta ++ te ++ [LogError MsgNoGridPower]), 30.
      split; [|right; reflexivity].
      rewrite <- !app_assoc. reflexivity.
Qed.

(** Without a grid power reading the tick stops before the decision: the
    error is logged, the process sleeps 30 s and exits; no global has
    changed and nothing was written to the controller. *)
Theorem grid_power_is_required (env : Env) (g : Globals) :
  GridPower env = None ->
  exists pre,
    update_ess_mode env g
    = Exc SystemExit g (pre ++ [LogError MsgNoGridPower; Sleep 30])
    /\ quiet pre
    /\ telemetry_within reading_paths pre.
Proof.
  intros H.
  destruct (update_ess_mode_unfold env g)
    as (ta & te & tp & [Ta Qa] & [Te Qe] & _ & U).
  unfold grid_reading in U. rewrite H in U. cbn [prepend] in U.
  exists (ta ++ te). split; [|split].
  - rewrite U, <- app_assoc. reflexivity.
  - apply quiet_app; assumption.
  - apply telemetry_within_app; assumption.
Qed.

Lemma grid_power_is_required_witness :
  exists pre,
    update_ess_mode
      {| DisableFeedIn := Some (Num 0); DisableCharge := Some (Num 0);
         EssPower := Some (Int32 0); GridPower := None;
         PvStatus := Some (Num 11); PvPower := Some (Num 0);
         Mode := Some (Num VE_MODE_OFF); BatterySoc := Some (Num 50);
         marker_file := true; sink_ok := fun _ => true;
         mode_write_ok := true |} at_rest
    = Exc SystemExit at_rest (pre ++ [LogError MsgNoGridPower; Sleep 30])
    /\ quiet pre
    /\ telemetry_within reading_paths pre.
Proof.
  apply grid_power_is_required. reflexivity.
Defined.

(** A grid power reading that is not a number gets past the read block and
    fails in the subtraction of line 178: the catch-all handler logs the
    exception, the process sleeps 10 s and exits, no global has changed
    and neither a load nor a decision value was published. *)
Theorem grid_power_must_be_a_number (env : Env) (g : Globals) :
  GridPower env = Some NonNum ->
  sink_ok env "/GridPower" = true ->
  exists pre,
    update_ess_mode env g
    = Exc SystemExit g
        (pre ++ [LogError MsgException; LogError MsgTraceback; Sleep 10])
    /\ quiet pre
    /\ telemetry_within reading_paths pre.
Proof.
  intros H S.
  destruct (update_ess_mode_unfold env g)
    as (ta & te & tp & [Ta Qa] & [Te Qe] & [Tp Qp] & U).
  unfold grid_reading in U. rewrite H, S in U.
  rewrite decide_unfold in U. cbn [num_of finish prepend app] in U.
  exists (ta ++ te ++ [Debug "/GridPower" (PVal NonNum)] ++ tp).
  split; [|split].
  - rewrite U, <- !app_assoc. reflexivity.
  - apply quiet_app; [assumption|]. apply quiet_app; [assumption|].
    apply quiet_app; [split; reflexivity|assumption].
  - apply telemetry_within_app; [assumption|].
    apply telemetry_within_app; [assumption|].
    apply telemetry_within_app; [|assumption].
    intros p x [Hp|[]]. injection Hp as <- _. cbn. tauto.
Qed.

Lemma grid_power_must_be_a_number_witness :
  exists pre,
    update_ess_mode
      {| DisableFeedIn := Some (Num 0); DisableCharge := Some (Num 0);
         EssPower := Some (Int32 0); GridPower := Some NonNum;
         PvStatus := Some (Num 11); PvPower := Some (Num 0);
         Mode := Some (Num VE_MODE_OFF); BatterySoc := Some (Num 50);
         marker_file := true; sink_ok := fun _ => true;
         mode_write_ok := true |} at_rest
    = Exc SystemExit at_rest
        (pre ++ [LogError MsgException; LogError MsgTraceback; Sleep 10])
    /\ quiet pre
    /\ telemetry_within reading_paths pre.
Proof.
  apply grid_power_must_be_a_number; reflexivity.
Defined.

(** ** What is written to the controller (lines 305-313 and 331-351) *)

Lemma mode_select_on_or_off fs cs :
  mode_select fs cs = VE_MODE_ON \/ mode_select fs cs = VE_MODE_OFF.
Proof. unfold mode_select. destruct fs, cs; tauto. Qed.

(** A tick writes nothing, or it found the lock open, the marker file
    present and the mode it started from different from the desired one,
    and wrote the desired mode once. *)
Lemma tick_mode_writes env g :
  mode_writes (trace_of (update_ess_mode env g)) = []
  \/ exists current0 lock0 mode_new,
       lock_start env g = Some (current0, lock0)
       /\ (lock0 >? 0) = false
       /\ py_eq current0 mode_new = false
       /\ marker_file env = true
       /\ mode_new = mode_select (feed_in_stable (globals_of (update_ess_mode env g)))
                       (charge_stable (globals_of (update_ess_mode env g)))
       /\ mode_writes (trace_of (update_ess_mode env g)) = [mode_new].
Proof.
  destruct (tick_outcome env g) as (_ & _ & M & _).
  destruct M as [[[W _] _]|(mode_new & _ & Hm & L)]; [left; exact W|].
  unfold lock_facts in L.
  destruct (lock_start env g) as [[c0 l0]|] eqn:Ls;
    [|left; destruct L as [[W _] _]; exact W].
  unfold relock in L.
  destruct (l0 >? 0) eqn:G; [left; destruct L as ([W|W] & _); exact W|].
  destruct (py_eq c0 mode_new) eqn:P; cbn [negb] in L;
    [left; destruct L as ([W|W] & _); exact W|].
  destruct (marker_file env) eqn:Mk;
    [|left; destruct L as ([W|W] & _); exact W].
  destruct L as ([W|W] & _); [left; exact W|].
  right. exists c0, l0, mode_new. repeat split; assumption.
Qed.

(** The script only ever asks the controller for 'On' or 'Off': no tick
    writes 'Charger only', 'Inverter only' or anything else. *)
Theorem mode_written_is_on_or_off (env : Env) (g : Globals) (m : Z) :
  In m (mode_writes (trace_of (update_ess_mode env g))) ->
  m = VE_MODE_ON \/ m = VE_MODE_OFF.
Proof.
  intros H. destruct (tick_mode_writes env g) as [W|(c0 & l0 & mn & _ & _ & _ & _ & Hm & W)];
    rewrite W in H; [destruct H|].
  destruct H as [<-|[]]. rewrite Hm. apply mode_select_on_or_off.
Qed.

Lemma mode_written_is_on_or_off_witness :
  VE_MODE_ON = VE_MODE_ON \/ VE_MODE_ON = VE_MODE_OFF.
Proof.
  apply (mode_written_is_on_or_off (healthy 150 true (Num VE_MODE_OFF))
           (set_feed_in_unstable true at_rest)).
  vm_compute. tauto.
Defined.

(** With the marker file absent nothing is written to the controller,
    whatever the readings and the globals. *)
Theorem no_write_while_disabled (env : Env) (g : Globals) :
  marker_file env = false ->
  mode_writes (trace_of (update_ess_mode env g)) = [].
Proof.
  intros H. destruct (tick_mode_writes env g) as [W|(c0 & l0 & mn & _ & _ & _ & Mk & _)];
    [exact W|congruence].
Qed.

Lemma no_write_while_disabled_witness :
  mode_writes
    (trace_of (update_ess_mode (healthy 150 false (Num VE_MODE_OFF))
                 (set_feed_in_unstable true at_rest)))
  = [].
Proof.
  apply no_write_while_disabled. reflexivity.
Defined.

(** On a completed tick without resynchronisation: under a running lock
    the timer counts down and the mode is kept; with the lock open and the
    desired mode equal to the current one nothing changes; otherwise the
    change is logged, [mode_current] becomes the desired mode and the lock
    restarts at [LOCK_TIME], also when the marker file is absent -- only
    the write to the controller then stays out. *)
Theorem mode_commit (env : Env) (g : Globals) (b : bool) (g' : Globals)
    (t : list event) :
  update_ess_mode env g = Val b g' t ->
  resync env g = false ->
  let m := mode_select (feed_in_stable g') (charge_stable g') in
  output_enabled g' = marker_file env
  /\ if mode_change_lock_timer g >? 0 then
       mode_current g' = mode_current g
       /\ mode_change_lock_timer g' = mode_change_lock_timer g - 1
       /\ mode_writes t = []
       /\ existsb is_change_log t = false
     else if py_eq (mode_current g) m then
       mode_current g' = mode_current g
       /\ mode_change_lock_timer g' = mode_change_lock_timer g
       /\ mode_writes t = []
       /\ existsb is_change_log t = false
     else
       mode_current g' = Num m
       /\ mode_change_lock_timer g' = LOCK_TIME
       /\ mode_writes t = (if marker_file env then [m] else [])
       /\ existsb is_change_log t = true.
Proof.
  intros E R. cbv zeta.
  destruct (tick_outcome env g) as (_ & _ & M & _).
  rewrite E in M. cbn [trace_of globals_of completed] in M.
  destruct M as [[_ C]|(m & _ & Hm & L)]; [discriminate C|].
  cbn [globals_of] in Hm. rewrite <- Hm. clear Hm.
  unfold lock_facts, lock_start in L. rewrite R in L.
  cbn [trace_of globals_of completed] in L. unfold relock in L.
  destruct (mode_change_lock_timer g >? 0) eqn:G.
  - destruct L as (_ & _ & L). destruct (L eq_refl) as (F & W & X).
    unfold mode_fields in F. injection F as F1 F2 F3.
    cbn [negb andb] in X. repeat split; assumption.
  - destruct (py_eq (mode_current g) m) eqn:P; cbn [negb] in L.
    + destruct L as (_ & _ & L). destruct (L eq_refl) as (F & W & X).
      unfold mode_fields in F. injection F as F1 F2 F3.
      cbn [negb andb] in X. repeat split; assumption.
    + destruct L as (_ & _ & L). destruct (L eq_refl) as (F & W & X).
      unfold mode_fields in F. injection F as F1 F2 F3.
      cbn [negb andb] in X. repeat split; assumption.
Qed.

Lemma mode_commit_witness :
  mode_current
    (globals_of (update_ess_mode (healthy 0 false (Num VE_MODE_ON))
                   (set_mode_current (Num VE_MODE_ON) at_rest)))
  = Num VE_MODE_OFF
  /\ mode_writes
       (trace_of (update_ess_mode (healthy 0 false (Num VE_MODE_ON))
                    (set_mode_current (Num VE_MODE_ON) at_rest)))
     = [].
Proof.
  pose proof (mode_commit (healthy 0 false (Num VE_MODE_ON))
                (set_mode_current (Num VE_MODE_ON) at_rest)) as H.
  edestruct H as [_ K]; [vm_compute; reflexivity|reflexivity|].
  destruct K as (K1 & _ & K3 & _). split; [exact K1|exact K3].
Defined.

(** ** The battery state of charge (lines 338-343) *)

Lemma mode_writes_prepend {A : Type} t (r : result A) :
  mode_writes (trace_of (prepend t r))
  = mode_writes t ++ mode_writes (trace_of r).
Proof. rewrite trace_of_prepend. apply mode_writes_app. Qed.

(** The state of charge is read and formatted for the log before the mode
    is written. *)
Lemma apply_mode_needs_soc env mode_new fa ca grid ess pv rl tl pvm g :
  BatterySoc env = None \/ BatterySoc env = Some NonNum ->
  mode_writes (trace_of (apply_mode env mode_new fa ca grid ess pv rl tl pvm g)) = [].
Proof.
  intros Hs.
  destruct (apply_mode env mode_new fa ca grid ess pv rl tl pvm g) as [a g1 t1|e g1 t1] eqn:H.
  all: destruct g as [d1 t1' d2 t2 fu fs ft cu cs ct mc lk oe].
  all: unfold apply_mode in H.
  all: revert H; destruct (marker_file env) eqn:Hm; destruct oe; intros H.
  all: cbn [andb negb] in H; run_in H.
  all: try discriminate H.
  all: try solve [exfalso; destruct Hs; congruence].
  all: inversion H; subst; clear H; reflexivity.
Qed.

(** The mode writes of a tick are those of its last section. *)
Lemma tick_mode_writes_apply env g :
  mode_writes (trace_of (update_ess_mode env g)) = []
  \/ exists mode_new fa ca grid ess pv pvm g2,
       mode_writes (trace_of (update_ess_mode env g))
       = mode_writes
           (trace_of (apply_mode env mode_new fa ca grid ess pv (grid - ess)
                        (grid - ess + pv) pvm g2)).
Proof.
  destruct (update_ess_mode_unfold env g)
    as (ta & te & tp & [_ [Qa _]] & [_ [Qe _]] & [_ [Qp _]] & U).
  rewrite U. rewrite !mode_writes_prepend, Qa, Qe. cbn [app].
  destruct (grid_reading env) as [gv|]; [|left; reflexivity].
  rewrite !mode_writes_prepend, Qp. cbn [app mode_writes].
  rewrite trace_of_finish, decide_unfold.
  destruct (num_of gv) as [grid|]; [|left; reflexivity].
  destruct (num_of (ess_reading env)) as [ess|]; [|left; reflexivity].
  cbv zeta.
  destruct (sink_ok env "/ResidualLoad"); [|left; reflexivity].
  destruct (num_of (snd (pv_reading env))) as [pv|]; [|left; reflexivity].
  destruct (sink_ok env "/TotalLoad"); [|left; reflexivity].
  rewrite mode_writes_prepend. cbn [app mode_writes].
  unfold sections. rewrite bind_unfold.
  destruct (feed_in_request env (fst (allow_flags env)) (grid - ess) g)
    as [[] g1 t1|e1 g1 t1] eqn:Hf;
    apply feed_in_request_outcome in Hf; cbn [trace_of] in Hf;
    destruct Hf as (_ & [Qf _] & _).
  2:{ left. exact Qf. }
  rewrite mode_writes_prepend, Qf. cbn [app].
  rewrite bind_unfold.
  destruct (charge_request env (snd (allow_flags env)) (grid - ess)
              (fst (pv_reading env)) g1)
    as [[] g2 t2|e2 g2 t2] eqn:Hc;
    apply charge_request_outcome in Hc; cbn [trace_of] in Hc;
    destruct Hc as (_ & [Qc _] & _).
  2:{ left. exact Qc. }
  rewrite mode_writes_prepend, Qc. cbn [app].
  rewrite overall_mode_apply.
  right. do 8 eexists. reflexivity.
Qed.

(** A tick on which the battery state of charge cannot be read, or is not a
    number, writes nothing to the controller: the read and the formatting
    for the log come before the write, so a failure there leaves through
    the catch-all handler first. *)
Theorem no_write_without_battery_soc (env : Env) (g : Globals) :
  BatterySoc env = None \/ BatterySoc env = Some NonNum ->
  mode_writes (trace_of (update_ess_mode env g)) = [].
Proof.
  intros Hs.
  destruct (tick_mode_writes_apply env g)
    as [W|(m & fa & ca & grid & ess & pv & pvm & g2 & W)]; [exact W|].
  rewrite W. apply apply_mode_needs_soc. exact Hs.
Qed.

(** A tick that would change the mode, with the state of charge
    unreadable. *)
Definition no_soc : Env :=
  {| DisableFeedIn := Some (Num 0);
     DisableCharge := Some (Num 0);
     EssPower := Some (Int32 0);
     GridPower := Some (Num 0);
     PvStatus := Some (Num 11);
     PvPower := Some (Num 0);
     Mode := Some (Num VE_MODE_ON);
     BatterySoc := None;
     marker_file := true;
     sink_ok := fun _ => true;
     mode_write_ok := true |}.

Lemma no_write_without_battery_soc_witness :
  mode_writes
    (trace_of (update_ess_mode no_soc (set_mode_current (Num VE_MODE_ON) at_rest)))
  = []
  /\ completed (update_ess_mode no_soc (set_mode_current (Num VE_MODE_ON) at_rest))
     = false.
Proof.
  split.
  - apply no_write_without_battery_soc. left. reflexivity.
  - vm_compute. reflexivity.
Defined.

(** ** The debug service (lines 366-406) *)

(** The initial value given to [add_path]. *)
Inductive item : Type :=
| Text (s : string)
| Number (n : Z)
| PyNone.

(** [new_service]: the name of the service and the paths added to it, in
    order.  [file] stands for [__file__] and [python_version] for
    [platform.python_version()]. *)
Definition new_service (file python_version : string)
    (base type physical : string) (instance : Z) : string * list (string * item) :=
  ((base ++ "." ++ type ++ "." ++ physical)%string,
   [("/Mgmt/ProcessName", Text file);
    ("/Mgmt/ProcessVersion",
     Text ("Unknown version, and running on Python " ++ python_version)%string);
    ("/Connected", Number 1);
    ("/HardwareVersion", Number 0)]
   ++ (if String.eqb physical "dbus_autosleep" then
         [("/Mgmt/Connection", Text "No connection");
          ("/CustomName", Text "Debug data for dbus-solaredge.py");
          ("/GridPower", PyNone);
          ("/EssPower", PyNone);
          ("/ResidualLoad", PyNone);
          ("/TotalLoad", PyNone);
          ("/FeedInDebounce", PyNone);
          ("/FeedInTimeout", PyNone);
          ("/FeedInAllowed", PyNone);
          ("/FeedInRequest", PyNone);
          ("/FeedInRequestStableTimer", PyNone);
          ("/FeedInRequestStable", PyNone);
          ("/PvInverterStatus", PyNone);
          ("/PvPower", PyNone);
          ("/ChargeDebounce", PyNone);
          ("/ChargeTimeout", PyNone);
          ("/ChargeAllowed", PyNone);
          ("/ChargeRequest", PyNone);
          ("/ChargeRequestStableTimer", PyNone);
          ("/ChargeRequestStable", PyNone);
          ("/Mode", PyNone);
          ("/ModeLockTime", PyNone);
          ("/ModeOutput", PyNone)]
       else [])).

(** Line 406. *)
Definition debug_service (file python_version : string) : string * list (string * item) :=
  new_service file python_version "com.victronenergy" "debug" "dbus_autosleep" 22.

(** Every publication of a tick is on a reading or a decision path. *)
Lemma tick_telemetry env g :
  telemetry_within (reading_paths ++ decision_paths)
    (trace_of (update_ess_mode env g)).
Proof.
  assert (Wr : forall t, telemetry_within reading_paths t ->
                 telemetry_within (reading_paths ++ decision_paths) t).
  { intros t H. eapply telemetry_within_incl; [|exact H].
    intros p Hp. apply in_or_app. left. exact Hp. }
  assert (Wn : forall t, (forall p x, ~ In (Debug p x) t) ->
                 telemetry_within (reading_paths ++ decision_paths) t).
  { intros t H p x Hp. destruct (H p x Hp). }
  destruct (update_ess_mode_unfold env g)
    as (ta & te & tp & [Ta _] & [Te _] & [Tp _] & U).
  rewrite U, !trace_of_prepend.
  apply telemetry_within_app; [apply Wr, Ta|].
  apply telemetry_within_app; [apply Wr, Te|].
  destruct (grid_reading env) as [gv|].
  2:{ apply Wn. intros p x. cbn. intuition discriminate. }
  rewrite !trace_of_prepend.
  apply telemetry_within_app.
  { intros p x [Hp|[]]. injection Hp as <- _. cbn. tauto. }
  apply telemetry_within_app; [apply Wr, Tp|].
  assert (Wf : forall r : result unit,
             telemetry_within (reading_paths ++ decision_paths) (trace_of r) ->
             telemetry_within (reading_paths ++ decision_paths) (trace_of (finish r))).
  { intros [a g1 t1|e g1 t1] H; cbn [finish trace_of] in *; [exact H|].
    apply telemetry_within_app; [exact H|].
    apply Wn. intros p x. cbn. intuition discriminate. }
  apply Wf. rewrite decide_unfold.
  destruct (num_of gv) as [grid|]; [|apply Wn; intros p x []].
  destruct (num_of (ess_reading env)) as [ess|]; [|apply Wn; intros p x []].
  cbv zeta.
  destruct (sink_ok env "/ResidualLoad"); [|apply Wn; intros p x []].
  assert (Wl : telemetry_within (reading_paths ++ decision_paths)
                 [Debug "/ResidualLoad" (PVal (Num (grid - ess)))]).
  { intros p x [Hp|[]]. injection Hp as <- _. cbn. tauto. }
  destruct (num_of (snd (pv_reading env))) as [pv|]; [|exact Wl].
  destruct (sink_ok env "/TotalLoad"); [|exact Wl].
  rewrite trace_of_prepend. apply telemetry_within_app.
  { intros p x [Hp|[Hp|[]]]; injection Hp as <- _; cbn; tauto. }
  destruct (sections_outcome env (fst (allow_flags env)) (snd (allow_flags env))
              grid ess pv (fst (pv_reading env)) g _ eq_refl) as (T & _).
  eapply telemetry_within_incl; [|exact T].
  intros p Hp. apply in_or_app. right. unfold decision_paths.
  apply in_or_app. right. exact Hp.
Qed.

(** The debug service is created with exactly the diagnostic items the
    tick uses: every publication of a tick goes to a path that
    [new_service] added with initial value [None], and each such path is
    published on by some tick. *)
Theorem debug_service_paths (file python_version : string) (p : string) :
  In (p, PyNone) (snd (debug_service file python_version))
  <-> exists env g x, publishes (trace_of (update_ess_mode env g)) p x.
Proof.
  split.
  - intros H. cbn in H.
    assert (K : In p (reading_paths ++ decision_paths) ).
    { cbn. repeat (destruct H as [H|H];
                   [try discriminate H; injection H as <-; tauto|]).
      destruct H. }
    destruct (String.eqb p "/ModeOutput") eqn:Q.
    + apply String.eqb_eq in Q. subst p.
      exists (healthy 150 true (Num VE_MODE_OFF)),
        (set_feed_in_unstable true at_rest), (PVal (Num VE_MODE_ON)).
      vm_compute. tauto.
    + exists (healthy 150 true (Num VE_MODE_OFF)), at_rest.
      cbn in K.
      repeat (destruct K as [K|K];
              [subst p; try discriminate Q; eexists; vm_compute; tauto|]).
      destruct K.
  - intros (env & g & x & H).
    apply tick_telemetry in H. cbn in H. cbn.
    repeat (destruct H as [<-|H]; [tauto|]). destruct H.
Qed.

(** ** The debounce counters over a run (lines 192-198 and 250-256) *)

Definition debounce_counter (ch : channel) (g : Globals) : Z :=
  match ch with
  | FeedIn => grid_import_debounce g
  | Charge => grid_export_debounce g
  end.

(** Lines 192 and 250: the residual load is beyond the channel's
    deactivation threshold. *)
Definition beyond (ch : channel) (residual_load : Z) : bool :=
  match ch with
  | FeedIn => residual_load >? FEED_IN_DISABLE_THRESHOLD
  | Charge => residual_load <? CHARGE_DISABLE_THRESHOLD
  end.

(** The readings of tick [k] give a residual load beyond the threshold. *)
Definition beyond_at (ch : channel) (envs : list Env) (k : nat) : Prop :=
  exists env rl,
    nth_error envs k = Some env
    /\ residual_load_of env = Some rl
    /\ beyond ch rl = true.

Lemma tick_debounce ch env g b g' t :
  update_ess_mode env g = Val b g' t ->
  exists rl,
    residual_load_of env = Some rl
    /\ debounce_counter ch g' = debounce (beyond ch rl) (debounce_counter ch g).
Proof.
  intros E. destruct (tick_channels env g b g' t E) as (rl & Hrl & _ & F & C).
  exists rl. split; [exact Hrl|].
  rewrite feed_in_step_fields in F. rewrite charge_step_fields in C.
  unfold feed_in_fields in F. unfold charge_fields in C.
  match type of F with
  | context [stabilize ?c ?x] => remember (stabilize c x) as s1 eqn:Hs1
  end.
  match type of C with
  | context [stabilize ?c ?x] => remember (stabilize c x) as s2 eqn:Hs2
  end.
  injection F as F1 _ _ _ _. injection C as C1 _ _ _ _.
  destruct ch; cbn [debounce_counter beyond]; assumption.
Qed.

(** After [n] ticks the counter is in range and the last
    [THRESHOLD_DEBOUNCE - counter] ticks were beyond the threshold. *)
Lemma debouncing_run ch mode_at_startup envs n : forall g,
  globals_after n envs (initial_globals mode_at_startup) = Some g ->
  0 <= debounce_counter ch g <= THRESHOLD_DEBOUNCE
  /\ (Z.to_nat (THRESHOLD_DEBOUNCE - debounce_counter ch g) <= n)%nat
  /\ forall k : nat,
       (n - Z.to_nat (THRESHOLD_DEBOUNCE - debounce_counter ch g) <= k < n)%nat ->
       beyond_at ch envs k.
Proof.
  induction n as [|n IH]; intros g G.
  - cbn in G. injection G as <-.
    destruct ch; cbn; unfold THRESHOLD_DEBOUNCE; (split; [lia|]);
      (split; [cbn; lia|]); intros k Hk; cbn in Hk; lia.
  - rewrite globals_after_snoc in G.
    destruct (globals_after n envs (initial_globals mode_at_startup))
      as [gn|] eqn:Gn; [|discriminate G].
    destruct (nth_error envs n) as [env|] eqn:N; [|discriminate G].
    destruct (update_ess_mode env gn) as [b g' t|e g' t] eqn:E; [|discriminate G].
    injection G as <-.
    destruct (IH gn eq_refl) as (B & L & H).
    destruct (tick_debounce ch env gn b g' t E) as (rl & Hrl & D).
    rewrite D. split; [apply debounce_bounds; exact B|].
    unfold debounce. destruct (beyond ch rl) eqn:Q; cbn [negb].
    + assert (Hn : beyond_at ch envs n) by (exists env, rl; auto).
      unfold THRESHOLD_DEBOUNCE in *.
      destruct (debounce_counter ch gn >? 0) eqn:P.
      * apply Z.gtb_lt in P. split; [lia|].
        intros k Hk. destruct (Nat.eq_dec k n) as [->|Hkn]; [exact Hn|].
        apply H. lia.
      * rewrite Z.gtb_ltb, Z.ltb_ge in P. split; [lia|].
        intros k Hk. destruct (Nat.eq_dec k n) as [->|Hkn]; [exact Hn|].
        apply H. lia.
    + unfold THRESHOLD_DEBOUNCE. split; [cbn; lia|].
      intros k Hk. cbn in Hk. lia.
Qed.

(** After [n] ticks the counter is at most [THRESHOLD_DEBOUNCE - j] when
    the last [j] ticks were beyond the threshold. *)
Lemma debounced_run ch mode_at_startup envs n : forall g (j : nat),
  globals_after n envs (initial_globals mode_at_startup) = Some g ->
  (j <= n)%nat ->
  Z.of_nat j <= THRESHOLD_DEBOUNCE ->
  (forall k : nat, (n - j <= k < n)%nat -> beyond_at ch envs k) ->
  debounce_counter ch g <= THRESHOLD_DEBOUNCE - Z.of_nat j.
Proof.
  induction n as [|n IH]; intros g j G Hj Hb H.
  - assert (j = 0%nat) by lia. subst j.
    destruct (debouncing_run ch mode_at_startup envs 0 g G) as (B & _). lia.
  - pose proof (debouncing_run ch mode_at_startup envs (S n) g G) as (B' & _).
    destruct j as [|j]; [lia|].
    rewrite globals_after_snoc in G.
    destruct (globals_after n envs (initial_globals mode_at_startup))
      as [gn|] eqn:Gn; [|discriminate G].
    destruct (nth_error envs n) as [env|] eqn:N; [|discriminate G].
    destruct (update_ess_mode env gn) as [b g' t|e g' t] eqn:E; [|discriminate G].
    injection G as <-.
    destruct (debouncing_run ch mode_at_startup envs n gn Gn) as (B & _).
    assert (I : debounce_counter ch gn <= THRESHOLD_DEBOUNCE - Z.of_nat j).
    { apply (IH gn j eq_refl); [lia|lia|]. intros k Hk. apply H. lia. }
    destruct (tick_debounce ch env gn b g' t E) as (rl & Hrl & D).
    destruct (H n) as (env' & rl' & N' & Hrl' & Q); [lia|].
    rewrite N in N'. injection N' as <-. rewrite Hrl in Hrl'. injection Hrl' as <-.
    rewrite D. unfold debounce. rewrite Q. cbn [negb].
    destruct (debounce_counter ch gn >? 0) eqn:P; [lia|].
    rewrite Z.gtb_ltb, Z.ltb_ge in P. unfold THRESHOLD_DEBOUNCE in *. lia.
Qed.

(** Over a run from process start, for either channel: the debounce
    counter is 0 after [n] ticks exactly when at least
    [THRESHOLD_DEBOUNCE] ticks have run and the residual load was beyond
    the channel's deactivation threshold on each of the last
    [THRESHOLD_DEBOUNCE] of them. *)
Theorem debounced_iff_threshold_held (ch : channel) (mode_at_startup : value)
    (envs : list Env) (n : nat) (g : Globals) :
  globals_after n envs (initial_globals mode_at_startup) = Some g ->
  (debounce_counter ch g = 0
   <-> (Z.to_nat THRESHOLD_DEBOUNCE <= n)%nat
       /\ forall k : nat,
            (n - Z.to_nat THRESHOLD_DEBOUNCE <= k < n)%nat -> beyond_at ch envs k).
Proof.
  intros G. split.
  - intros Z0.
    destruct (debouncing_run ch mode_at_startup envs n g G) as (_ & L & H).
    rewrite Z0, Z.sub_0_r in L, H. split; assumption.
  - intros [L H].
    destruct (debouncing_run ch mode_at_startup envs n g G) as (B & _).
    pose proof (debounced_run ch mode_at_startup envs n g
                  (Z.to_nat THRESHOLD_DEBOUNCE) G L) as D.
    unfold THRESHOLD_DEBOUNCE in *.
    assert (debounce_counter ch g <= 10 - Z.of_nat (Z.to_nat 10)).
    { apply D; [lia|exact H]. }
    lia.
Qed.

Lemma debounced_iff_threshold_held_witness :
  beyond_at FeedIn (repeat (healthy 150 true (Num VE_MODE_OFF)) 10) 0.
Proof.
  pose proof (debounced_iff_threshold_held FeedIn (Num VE_MODE_OFF)
                (repeat (healthy 150 true (Num VE_MODE_OFF)) 10) 10) as H.
  edestruct H as [K _]; [vm_compute; reflexivity|].
  destruct (K eq_refl) as [_ B]. apply (B 0%nat). vm_compute. lia.
Defined.

(** ** The desired mode (lines 305-315) *)

(** A completed tick publishes one desired mode on "/Mode": 'On' when the
    feed-in or the charge request is stable after the tick, 'Off'
    otherwise. *)
Theorem desired_mode_published (env : Env) (g : Globals) (b : bool)
    (g' : Globals) (t : list event) :
  update_ess_mode env g = Val b g' t ->
  let m := if feed_in_stable g' || charge_stable g' then VE_MODE_ON
           else VE_MODE_OFF in
  publishes t "/Mode" (PVal (Num m))
  /\ forall x, publishes t "/Mode" x -> x = PVal (Num m).
Proof.
  intros E. cbv zeta.
  assert (S : (if feed_in_stable g' || charge_stable g' then VE_MODE_ON
               else VE_MODE_OFF)
              = mode_select (feed_in_stable g') (charge_stable g')).
  { unfold mode_select. destruct (feed_in_stable g'), (charge_stable g'); reflexivity. }
  rewrite S.
  destruct (tick_outcome env g) as (_ & _ & M & _ & K & C).
  rewrite E in M, K, C. cbn [completed trace_of] in C.
  destruct (C eq_refl) as (rl & Hrl & _).
  destruct (K rl Hrl) as [_ Kd]. unfold completion_facts in Kd.
  cbn [completed globals_of trace_of] in Kd.
  destruct (Kd eq_refl) as (_ & _ & _ & _ & P).
  split; [exact P|].
  destruct M as [[_ Cm]|(m & U & Hm & _)]; [discriminate Cm|].
  cbn [globals_of trace_of] in U, Hm. rewrite <- Hm. exact U.
Qed.

Lemma desired_mode_published_witness :
  publishes
    (trace_of (update_ess_mode (healthy 150 true (Num VE_MODE_OFF)) at_rest))
    "/Mode" (PVal (Num VE_MODE_OFF)).
Proof.
  pose proof (desired_mode_published (healthy 150 true (Num VE_MODE_OFF)) at_rest) as H.
  edestruct H as [K _]; [vm_compute; reflexivity|]. exact K.
Defined.

(** ** The timeout windows over a run (lines 200-208 and 258-266) *)






(** ** Requests that hold become stable (lines 228-238 and 287-297) *)

Lemma run_in_bounds mode_at_startup envs n : forall g,
  globals_after n envs (initial_globals mode_at_startup) = Some g ->
  in_bounds g.
Proof.
  induction n as [|n IH]; intros g G.
  - cbn in G. injection G as <-.
    unfold in_bounds, initial_globals, THRESHOLD_DEBOUNCE, FEED_IN_TIMEOUT,
      CHARGE_TIMEOUT, STABLE_TIMER. cbn. lia.
  - rewrite globals_after_snoc in G.
    destruct (globals_after n envs (initial_globals mode_at_startup))
      as [gn|] eqn:Gn; [|discriminate G].
    destruct (nth_error envs n) as [env|] eqn:N; [|discriminate G].
    destruct (update_ess_mode env gn) as [b g' t|e g' t] eqn:E; [|discriminate G].
    injection G as <-. exact (tick_in_bounds env gn b g' t (IH gn eq_refl) E).
Qed.

Lemma settle_timer_bounds ch g :
  in_bounds g -> 0 <= settle_timer ch g <= STABLE_TIMER.
Proof.
  intros (_ & _ & B3 & _ & _ & B6). destruct ch; assumption.
Qed.

(** After [j >= 1] ticks in a row with request [c], the request being
    stabilized is [c], and [c] is the stable state or the settle timer has
    at most [STABLE_TIMER + 1 - j] to go. *)
Lemma held_run ch mode_at_startup envs c n : forall g (j : nat),
  globals_after n envs (initial_globals mode_at_startup) = Some g ->
  (1 <= j <= n)%nat ->
  (forall k : nat, (n - j <= k < n)%nat ->
     candidate_at ch (main_loop envs (initial_globals mode_at_startup)) k c) ->
  unstable_value ch g = c
  /\ (stable_value ch g = c
      \/ settle_timer ch g + Z.of_nat j <= STABLE_TIMER + 1).
Proof.
  induction n as [|n IH]; intros g j G Hj H; [lia|].
  pose proof G as G'. rewrite globals_after_snoc in G.
  destruct (globals_after n envs (initial_globals mode_at_startup))
    as [gn|] eqn:Gn; [|discriminate G].
  destruct (nth_error envs n) as [env|] eqn:N; [|discriminate G].
  destruct (update_ess_mode env gn) as [b g' t|e g' t] eqn:E; [|discriminate G].
  injection G as <-.
  assert (Hc : candidate_at ch (main_loop envs (initial_globals mode_at_startup)) n c)
    by (apply H; lia).
  pose proof (candidate_kept ch envs _ n gn env b g' t c Gn N E Hc) as S.
  pose proof (settle_timer_bounds ch gn (run_in_bounds _ _ _ _ Gn)) as B.
  destruct (Nat.eq_dec j 1) as [->|J1].
  - unfold unstable_value, stable_value, settle_timer in *. rewrite S.
    destruct (stabilizer ch gn) as [[u tm] s]. cbn [fst snd] in B.
    unfold stabilize, STABLE_TIMER in *.
    destruct (Bool.eqb c u) eqn:Q; cbn [negb].
    + apply eqb_prop in Q. subst u.
      destruct (tm >? 0) eqn:T; cbn [fst snd].
      * split; [reflexivity|right; lia].
      * split; [reflexivity|left; reflexivity].
    + cbn [fst snd]. split; [reflexivity|right; lia].
  - destruct (IH gn (j - 1)%nat eq_refl) as [U I]; [lia|intros k Hk; apply H; lia|].
    unfold unstable_value, stable_value, settle_timer in *. rewrite S.
    destruct (stabilizer ch gn) as [[u tm] s]. cbn [fst snd] in B, U, I.
    subst u. unfold stabilize, STABLE_TIMER in *.
    rewrite eqb_reflx. cbn [negb].
    destruct (tm >? 0) eqn:T; cbn [fst snd].
    + split; [reflexivity|]. destruct I as [I|I]; [left; exact I|right; lia].
    + split; [reflexivity|left; reflexivity].
Qed.

(** Over a run from process start, for either channel: a request that has
    been the same on the last [STABLE_TIMER + 2] ticks is the stable
    state. *)
Theorem held_request_becomes_stable (ch : channel) (mode_at_startup : value)
    (envs : list Env) (n : nat) (g : Globals) (c : bool) :
  globals_after n envs (initial_globals mode_at_startup) = Some g ->
  (Z.to_nat STABLE_TIMER + 2 <= n)%nat ->
  (forall k : nat,
     (n - (Z.to_nat STABLE_TIMER + 2) <= k < n)%nat ->
     candidate_at ch (main_loop envs (initial_globals mode_at_startup)) k c) ->
  stable_value ch g = c.
Proof.
  intros G L H.
  destruct (held_run ch mode_at_startup envs c n g (Z.to_nat STABLE_TIMER + 2) G)
    as [_ [I|I]]; [lia|exact H|exact I|].
  pose proof (settle_timer_bounds ch g (run_in_bounds _ _ _ _ G)) as B.
  unfold STABLE_TIMER in *. lia.
Qed.

Lemma candidate_at_repeat (k : nat) :
  (k < 62)%nat ->
  candidate_at FeedIn
    (main_loop (repeat (healthy 150 true (Num VE_MODE_OFF)) 62)
       (initial_globals (Num VE_MODE_OFF))) k true.
Proof.
  intros Hk.
  do 62 (destruct k as [|k]; [eexists; split; [vm_compute; reflexivity|vm_compute; tauto]|]).
  lia.
Qed.

Lemma held_request_becomes_stable_witness :
  exists g,
    globals_after 62 (repeat (healthy 150 true (Num VE_MODE_OFF)) 62)
      (initial_globals (Num VE_MODE_OFF)) = Some g
    /\ stable_value FeedIn g = true.
Proof.
  eexists. split; [vm_compute; reflexivity|].
  apply (held_request_becomes_stable FeedIn (Num VE_MODE_OFF)
           (repeat (healthy 150 true (Num VE_MODE_OFF)) 62) 62 _ true).
  - vm_compute. reflexivity.
  - vm_compute. lia.
  - intros k Hk. apply candidate_at_repeat. lia.
Defined.

(** ** Enabling the output (lines 321-324) *)

(** When the marker file has appeared and the controller's mode cannot be
    read, the tick neither writes to the controller nor logs a mode
    change, and it does not complete. *)
Theorem resync_needs_mode (env : Env) (g : Globals) :
  resync env g = true ->
  Mode env = None ->
  quiet (trace_of (update_ess_mode env g))
  /\ completed (update_ess_mode env g) = false.
Proof.
  intros R Hm. destruct (tick_outcome env g) as (_ & _ & M & _).
  destruct M as [M|(m & _ & _ & L)]; [exact M|].
  unfold lock_facts, lock_start in L. rewrite R, Hm in L. exact L.
Qed.

Lemma resync_needs_mode_witness :
  completed
    (update_ess_mode
       {| DisableFeedIn := Some (Num 0); DisableCharge := Some (Num 0);
          EssPower := Some (Int32 0); GridPower := Some (Num 0);
          PvStatus := Some (Num 11); PvPower := Some (Num 0);
          Mode := None; BatterySoc := Some (Num 50);
          marker_file := true; sink_ok := fun _ => true;
          mode_write_ok := true |}
       (set_output_enabled false at_rest))
  = false.
Proof.
  apply resync_needs_mode; reflexivity.
Defined.
